(** * agent_kit_sample: a shallow embedding of main.go

    The program wires two stub booking handlers into a three-agent hierarchy
    of an external agent framework and feeds three fixed prompts through it.
    Everything the framework, the operating system and the clock decide is
    gathered in a [World]; the program text itself (handlers, [main],
    [runAgent], [run]) is embedded as computations over an explicit process
    state. *)

From Stdlib Require Import String Ascii ZArith Lia.
From stdpp Require Import base option list gmap strings relations.

Local Open Scope string_scope.

(** ** Formatting (package fmt) *)

Module Fmt.

(** The operands that main.go hands to the formatting verbs: Go strings,
    error values, and structs all of whose fields are strings. *)
Inductive Value :=
| VString (s : string)
| VError (msg : string)
| VStruct (fields : list string).

Definition nl : string := String (ascii_of_nat 10) EmptyString.

Fixpoint join_fields (fields : list string) : string :=
  match fields with
  | [] => ""
  | [f] => f
  | f :: rest => f ++ " " ++ join_fields rest
  end.

(** What [%v], [%s] and [%w] print for an operand: a string as it is, an
    error by its message, a struct as its fields between braces. *)
Definition format_value (v : Value) : string :=
  match v with
  | VString s => s
  | VError msg => msg
  | VStruct fields => "{" ++ join_fields fields ++ "}"
  end.

Definition is_verb (c : ascii) : bool :=
  (Ascii.eqb c "s" || Ascii.eqb c "v" || Ascii.eqb c "w")%bool.

(** [Sprintf] restricted to what the program uses: the verbs s, v and w
    (the latter through [Errorf]) and the escape of the percent sign. An
    operand that is missing prints Go's marker; other verbs and operands
    left over do not occur in main.go and are left as written. *)
Fixpoint Sprintf (format : string) (args : list Value) : string :=
  match format with
  | EmptyString => EmptyString
  | String c rest =>
      if Ascii.eqb c "%" then
        match rest with
        | EmptyString => "%!(NOVERB)"
        | String v rest' =>
            if is_verb v then
              match args with
              | a :: args' => format_value a ++ Sprintf rest' args'
              | [] => "%!" ++ String v "(MISSING)" ++ Sprintf rest' []
              end
            else if Ascii.eqb v "%" then String "%" (Sprintf rest' args)
            else String "%" (String v (Sprintf rest' args))
        end
      else String c (Sprintf rest args)
  end.

(** [fmt.Errorf]: the new error's message. *)
Definition Errorf (format : string) (args : list Value) : string :=
  Sprintf format args.

End Fmt.
Import Fmt.

(** ** Data of the program and of the framework it configures *)

(** tool.Context is an interface of the framework; the handlers receive a
    value of it and the fields below stand for what such a value carries. *)
Record Context := {
  InvocationID : string;
  AgentName : string;
  FunctionCallID : string
}.

(** The two argument structs share the field name Date and the two result
    structs all three of theirs, hence one name space per tool. *)
Module Hotel.
Record bookHotelArg := {
  Location : string;
  Date : string
}.

Record bookHotelResult := {
  Status : string;
  Report : string;
  ErrorMessage : string
}.
End Hotel.

Module Flight.
Record bookFlightArg := {
  Origin : string;
  Destination : string;
  Date : string
}.

Record bookFlightResult := {
  Status : string;
  Report : string;
  ErrorMessage : string
}.
End Flight.

(** genai.Part and genai.Content: a part has a text and possibly another
    payload (a function call or its response); a content holds pointers to
    parts, any of which may be nil. *)
Record Part := {
  Text : string;
  Payload : option string
}.

Record Content := {
  Parts : list (option Part);
  Role : string
}.

(** session.Event: the pointer to its content may be nil. *)
Record Event := {
  Author : string;
  EContent : option Content
}.

Record Model := {
  ModelName : string;
  APIKey : string
}.

Inductive HandlerRef := HBookHotel | HBookFlight.

Record ToolConfig := {
  TName : string;
  TDescription : string
}.

Record Tool := {
  TConfig : ToolConfig;
  THandler : HandlerRef
}.

(** Agents are objects of the framework, referred to by reference; a
    reference is the position of the object in the heap of agents. *)
Definition AgentRef := nat.

Record AgentConfig := {
  Name : string;
  Description : string;
  Instruction : string;
  AModel : Model;
  Tools : list Tool;
  SubAgents : list AgentRef
}.

Inductive StreamingMode := StreamingModeNone | StreamingModeSSE.

Record RunConfig := {
  Streaming : StreamingMode
}.

Record RunnerConfig := {
  AppName : string;
  Agent : AgentRef
}.

(** One call of [Runner.Run]. *)
Record Submission := {
  SUserID : string;
  SSessionID : string;
  SMessage : Content;
  SConfig : RunConfig
}.

Inductive ToolCall :=
| CallBookHotel (arg : Hotel.bookHotelArg)
| CallBookFlight (arg : Flight.bookFlightArg).

(** What advancing the event sequence of a run does: the framework either
    calls one of the registered handlers on the way to the next event, or
    hands the loop a pair of an event pointer and an error. *)
Inductive Step :=
| Invoke (c : Context) (call : ToolCall)
| Yield (event : option Event) (err : option string).

(** ** The world outside the program *)

Record World := {
  argv : list string;
  environ : gmap string string;
  (** godotenv.Load: an error, or the variables read from the .env file *)
  dotenv : string + gmap string string;
  (** the error, if any, of each constructor of the framework *)
  gemini_NewModel_err : string -> string -> option string;
  functiontool_New_err : ToolConfig -> HandlerRef -> option string;
  llmagent_New_err : AgentConfig -> option string;
  runner_New_err : RunnerConfig -> option string;
  (** session service: an error, or the identifier of the new session *)
  session_Create_res : string -> string -> string + string;
  (** the event sequence of a run, given the runs submitted before it *)
  run_steps : list Submission -> Submission -> list Step;
  (** the date and time header of the standard logger *)
  log_header : string
}.

(** ** The process *)

Inductive Termination :=
| Exited (code : Z)
| Panicked (reason : string).

Record Process := {
  env : gmap string string;
  stdout : list string;
  stderr : list string;
  agents : list AgentConfig;
  submitted : list Submission;
  (** the steps of event sequences the program has advanced through *)
  pulled : list Step
}.

Definition Proc (A : Type) : Type := Process -> (A + Termination) * Process.

Definition ret {A} (a : A) : Proc A := fun st => (inl a, st).

Definition bind {A B} (m : Proc A) (k : A -> Proc B) : Proc B :=
  fun st =>
    match m st with
    | (inl a, st') => k a st'
    | (inr t, st') => (inr t, st')
    end.

Notation "'let*' x ':=' m 'in' k" := (bind m (fun x => k))
  (at level 10, x name, m at level 100, k at level 200).
Notation "m '>>' k" := (bind m (fun _ => k))
  (at level 90, right associativity).

Definition set_env (e : gmap string string) (st : Process) : Process :=
  {| env := e; stdout := stdout st; stderr := stderr st;
     agents := agents st; submitted := submitted st; pulled := pulled st |}.

Definition add_stdout (s : string) (st : Process) : Process :=
  {| env := env st; stdout := stdout st ++ [s]; stderr := stderr st;
     agents := agents st; submitted := submitted st; pulled := pulled st |}.

Definition add_stderr (s : string) (st : Process) : Process :=
  {| env := env st; stdout := stdout st; stderr := stderr st ++ [s];
     agents := agents st; submitted := submitted st; pulled := pulled st |}.

Definition add_agent (a : AgentConfig) (st : Process) : Process :=
  {| env := env st; stdout := stdout st; stderr := stderr st;
     agents := agents st ++ [a]; submitted := submitted st; pulled := pulled st |}.

Definition add_submitted (s : Submission) (st : Process) : Process :=
  {| env := env st; stdout := stdout st; stderr := stderr st;
     agents := agents st; submitted := submitted st ++ [s]; pulled := pulled st |}.

Definition add_pulled (s : Step) (st : Process) : Process :=
  {| env := env st; stdout := stdout st; stderr := stderr st;
     agents := agents st; submitted := submitted st; pulled := pulled st ++ [s] |}.

Definition get : Proc Process := fun st => (inl st, st).
Definition modify (f : Process -> Process) : Proc unit := fun st => (inl tt, f st).
Definition terminate {A} (t : Termination) : Proc A := fun st => (inr t, st).

(** Writes to the two standard streams, exit and panic. *)
Definition fmt_Printf (format : string) (args : list Value) : Proc unit :=
  modify (add_stdout (Sprintf format args)).

Definition fmt_Fprintf_Stderr (format : string) (args : list Value) : Proc unit :=
  modify (add_stderr (Sprintf format args)).

Definition os_Exit {A} (code : Z) : Proc A := terminate (Exited code).

Definition panic {A} (reason : string) : Proc A := terminate (Panicked reason).

Definition nil_dereference : string :=
  "runtime error: invalid memory address or nil pointer dereference".

Definition index_out_of_range : string :=
  "runtime error: index out of range [0] with length 0".

(** Following a pointer, and indexing a slice at 0. *)
Definition deref {A} (p : option A) : Proc A :=
  match p with
  | Some a => ret a
  | None => panic nil_dereference
  end.

Definition index0 {A} (l : list A) : Proc A :=
  match l !! 0%nat with
  | Some a => ret a
  | None => panic index_out_of_range
  end.

(** ** 1. Static tool functions *)

Definition bookHotel (c : Context) (arg : Hotel.bookHotelArg) : Proc Hotel.bookHotelResult :=
  let confirmation := "CONF_HOTEL_98765" in
  fmt_Printf "%v" [VStruct [Hotel.Location arg; Hotel.Date arg]] >>
  ret {| Hotel.Status := "success";
         Hotel.Report :=
           Sprintf "Hotel booked in %s on %s. Confirmation: %s"
             [VString (Hotel.Location arg); VString (Hotel.Date arg);
              VString confirmation];
         Hotel.ErrorMessage := "" |}.

Definition bookFlight (c : Context) (arg : Flight.bookFlightArg) : Proc Flight.bookFlightResult :=
  let confirmation := "CONF_FLIGHT_12345" in
  fmt_Printf "%v"
    [VStruct [Flight.Origin arg; Flight.Destination arg; Flight.Date arg]] >>
  ret {| Flight.Status := "success";
         Flight.Report :=
           Sprintf "Flight booked from %s to %s on %s. Confirmation: %s"
             [VString (Flight.Origin arg); VString (Flight.Destination arg);
              VString (Flight.Date arg); VString confirmation];
         Flight.ErrorMessage := "" |}.

(** The framework calling a registered handler; the result goes back to the
    framework, which shows in the events that follow. *)
Definition invoke (c : Context) (call : ToolCall) : Proc unit :=
  match call with
  | CallBookHotel arg => bookHotel c arg >> ret tt
  | CallBookFlight arg => bookFlight c arg >> ret tt
  end.

(** ** The framework and the system, as the program calls them *)

(** A Go result pair (value, error). *)
Inductive result (T : Type) :=
| Ok (v : T)
| Err (msg : string).
Arguments Ok {T} v.
Arguments Err {T} msg.

Definition RoleUser : string := "user".

Definition genai_NewContentFromText (text role : string) : Content :=
  {| Parts := [Some {| Text := text; Payload := None |}]; Role := role |}.

Fixpoint ends_with_newline (s : string) : bool :=
  match s with
  | EmptyString => false
  | String c EmptyString => Ascii.eqb c (ascii_of_nat 10)
  | String _ rest => ends_with_newline rest
  end.

(** The standard logger ends each entry with a newline of its own unless
    the message has one. *)
Definition log_entry (msg : string) : string :=
  if ends_with_newline msg then msg else msg ++ nl.

Section Program.

Variable w : World.

(** godotenv.Load sets the variables of the .env file that the process
    environment does not have yet. *)
Definition godotenv_Load : Proc (option string) :=
  match dotenv w with
  | inl e => ret (Some e)
  | inr vars =>
      let* st := get in
      modify (set_env (env st ∪ vars)) >> ret None
  end.

Definition os_Getenv (key : string) : Proc string :=
  let* st := get in
  ret (default "" (env st !! key)).

Definition log_Fatalf {A} (format : string) (args : list Value) : Proc A :=
  modify (add_stderr (log_header w ++ log_entry (Sprintf format args))) >>
  os_Exit 1.

Definition log_Fatal {A} (err : string) : Proc A :=
  modify (add_stderr (log_header w ++ log_entry err)) >>
  os_Exit 1.

Definition gemini_NewModel (name key : string) : Proc (result Model) :=
  match gemini_NewModel_err w name key with
  | Some e => ret (Err e)
  | None => ret (Ok {| ModelName := name; APIKey := key |})
  end.

Definition functiontool_New (cfg : ToolConfig) (handler : HandlerRef) : Proc (result Tool) :=
  match functiontool_New_err w cfg handler with
  | Some e => ret (Err e)
  | None => ret (Ok {| TConfig := cfg; THandler := handler |})
  end.

(** A new agent object is allocated at the end of the heap. *)
Definition llmagent_New (cfg : AgentConfig) : Proc (result AgentRef) :=
  match llmagent_New_err w cfg with
  | Some e => ret (Err e)
  | None =>
      let* st := get in
      modify (add_agent cfg) >> ret (Ok (length (agents st)))
  end.

Definition runner_New (cfg : RunnerConfig) : Proc (result RunnerConfig) :=
  match runner_New_err w cfg with
  | Some e => ret (Err e)
  | None => ret (Ok cfg)
  end.

Definition sessionService_Create (appName userID : string) : Proc (result string) :=
  match session_Create_res w appName userID with
  | inl e => ret (Err e)
  | inr id => ret (Ok id)
  end.

(** [Runner.Run]: the prompt is submitted and the event sequence of the
    run comes back. *)
Definition Runner_Run (r : RunnerConfig) (userID sessionID : string)
    (msg : Content) (cfg : RunConfig) : Proc (list Step) :=
  let s := {| SUserID := userID; SSessionID := sessionID;
              SMessage := msg; SConfig := cfg |} in
  let* st := get in
  modify (add_submitted s) >> ret (run_steps w (submitted st) s).

(** ** run *)

(** The body of the loop over the events. *)
Definition run_body (event : option Event) (err : option string) : Proc unit :=
  match err with
  | Some e => log_Fatalf "ERROR during agent execution: %v" [VError e]
  | None =>
      let* ev := deref event in
      let* content := deref (EContent ev) in
      let* p := index0 (Parts content) in
      let* part := deref p in
      if negb (String.eqb (Text part) "") then
        fmt_Printf ("Agent Response: %s" ++ nl) [VString (Text part)]
      else ret tt
  end.

(** Ranging over the sequence: every step is pulled in turn, a handler
    call runs inside the framework, an event goes through the body. *)
Fixpoint range_events (events : list Step) : Proc unit :=
  match events with
  | [] => ret tt
  | s :: rest =>
      modify (add_pulled s) >>
      match s with
      | Invoke c call => invoke c call
      | Yield event err => run_body event err
      end >>
      range_events rest
  end.

Definition run (r : RunnerConfig) (sessionID prompt : string) : Proc unit :=
  fmt_Printf (nl ++ "> %s" ++ nl) [VString prompt] >>
  let* events :=
    Runner_Run r "user1234" sessionID
      (genai_NewContentFromText prompt RoleUser)
      {| Streaming := StreamingModeNone |} in
  range_events events.

(** ** runAgent and main *)

Definition hotelToolConfig : ToolConfig :=
  {| TName := "bookHotel";
     TDescription := "Use this function to book a hotel. Requires location and date." |}.

Definition flightToolConfig : ToolConfig :=
  {| TName := "bookFlight";
     TDescription := "Use this function to book a flight. Requires origin, destination, and date." |}.

Definition runAgent : Proc (option string) :=
  let* err := godotenv_Load in
  match err with
  | Some e => ret (Some (Errorf "loading .env file: %w" [VError e]))
  | None =>
  let* key := os_Getenv "API_KEY" in
  if String.eqb key "" then
    ret (Some (Errorf "API_KEY environment variable is not set" []))
  else
  let* model := gemini_NewModel "gemini-2.5-flash" key in
  match model with
  | Err e => ret (Some (Errorf "creating Gemini model: %w" [VError e]))
  | Ok model =>
  let* hotelTool := functiontool_New hotelToolConfig HBookHotel in
  match hotelTool with
  | Err e => ret (Some (Errorf "creating hotel tool: %w" [VError e]))
  | Ok hotelTool =>
  let* flightTool := functiontool_New flightToolConfig HBookFlight in
  match flightTool with
  | Err e => ret (Some (Errorf "creating flight tool: %w" [VError e]))
  | Ok flightTool =>
  let* bookingAgent := llmagent_New
    {| Name := "Booker";
       Description := "Handles flight and hotel bookings. Use your tools for any booking request.";
       Instruction := "";
       AModel := model;
       Tools := [hotelTool; flightTool];
       SubAgents := [] |} in
  match bookingAgent with
  | Err e => ret (Some (Errorf "creating booking agent: %w" [VError e]))
  | Ok bookingAgent =>
  let* infoAgent := llmagent_New
    {| Name := "Info";
       Description := "Provides general information and answers questions.";
       Instruction := "";
       AModel := model;
       Tools := [];
       SubAgents := [] |} in
  match infoAgent with
  | Err e => ret (Some (Errorf "creating info agent: %w" [VError e]))
  | Ok infoAgent =>
  let* coordinator := llmagent_New
    {| Name := "Coordinator";
       Description := "Main coordinator.";
       Instruction := "You are an assistant. Delegate booking tasks to Booker and info requests to Info.";
       AModel := model;
       Tools := [];
       SubAgents := [bookingAgent; infoAgent] |} in
  match coordinator with
  | Err e => ret (Some (Errorf "creating coordinator agent: %w" [VError e]))
  | Ok coordinator =>
  let* runner := runner_New {| AppName := "booking_planner"; Agent := coordinator |} in
  match runner with
  | Err e => log_Fatal e
  | Ok runner =>
  let* session := sessionService_Create "booking_planner" "user1234" in
  match session with
  | Err e => log_Fatal e
  | Ok sessionID =>
  run runner sessionID "i want to visit in london?" >>
  run runner sessionID "on 2025-11-14" >>
  run runner sessionID "also book a hotel for me " >>
  ret None
  end end end end end end end end end.

Definition main : Proc unit :=
  let* err := runAgent in
  match err with
  | Some e =>
      fmt_Fprintf_Stderr ("Error: %v" ++ nl) [VError e] >>
      os_Exit 1
  | None => ret tt
  end.

End Program.

(** The process at its start, and the whole execution: returning from
    [main] is exit status 0. *)
Definition start (w : World) : Process :=
  {| env := environ w; stdout := []; stderr := []; agents := [];
     submitted := []; pulled := [] |}.

Definition exec (w : World) : Termination * Process :=
  match main w (start w) with
  | (inl _, st) => (Exited 0, st)
  | (inr t, st) => (t, st)
  end.

(** * Vocabulary of the properties *)

(** [sub] occurs in [s]. *)
Definition Contains (s sub : string) : Prop :=
  exists pre post, s = pre ++ sub ++ post.

(** What a handler echoes on standard output: its argument under [%v]. *)
Definition hotel_echo (arg : Hotel.bookHotelArg) : string :=
  "{" ++ Hotel.Location arg ++ " " ++ Hotel.Date arg ++ "}".

Definition flight_echo (arg : Flight.bookFlightArg) : string :=
  "{" ++ Flight.Origin arg ++ " " ++ Flight.Destination arg ++ " "
      ++ Flight.Date arg ++ "}".

(** The three prompts of [runAgent], in the order of the program text. *)
Definition prompts : list string :=
  ["i want to visit in london?"; "on 2025-11-14"; "also book a hotel for me "].

(** What [run] submits for a prompt in a session. *)
Definition submission (sessionID prompt : string) : Submission :=
  {| SUserID := "user1234"; SSessionID := sessionID;
     SMessage := genai_NewContentFromText prompt RoleUser;
     SConfig := {| Streaming := StreamingModeNone |} |}.

(** The event sequence the world answers the k-th prompt with. *)
Definition stream (w : World) (sessionID : string) (k : nat) : list Step :=
  match prompts !! k with
  | Some p =>
      run_steps w (submission sessionID <$> take k prompts)
        (submission sessionID p)
  | None => []
  end.

(** The text of the first part of an event, when the event, its content
    and that part are all there. *)
Definition first_text (event : option Event) : option string :=
  match event with
  | Some ev =>
      match EContent ev with
      | Some c =>
          match Parts c with
          | Some part :: _ => Some (Text part)
          | _ => None
          end
      | None => None
      end
  | None => None
  end.


(** A step the loop gets past: a handler call, or an event without error
    whose first part can be read. *)
Definition step_ok (s : Step) : bool :=
  match s with
  | Invoke _ _ => true
  | Yield event None =>
      match first_text event with Some _ => true | None => false end
  | Yield _ (Some _) => false
  end.

(** What a step puts on standard output, as the specification has it: a
    handler its echo, an event with a text its response line. *)
Definition step_output (s : Step) : list string :=
  match s with
  | Invoke _ (CallBookHotel arg) => [hotel_echo arg]
  | Invoke _ (CallBookFlight arg) => [flight_echo arg]
  | Yield event _ =>
      match first_text event with
      | Some t => if String.eqb t "" then [] else ["Agent Response: " ++ t ++ nl]
      | None => []
      end
  end.


(** The agent graph of a heap: an edge from an agent to each of its
    sub-agents; ancestors are the non-empty paths. *)
Definition edge (h : list AgentConfig) (a b : AgentRef) : Prop :=
  exists c, h !! a = Some c /\ b ∈ SubAgents c.

Definition ancestor (h : list AgentConfig) : AgentRef -> AgentRef -> Prop :=
  tc (edge h).

Definition acyclic (h : list AgentConfig) : Prop :=
  forall a, ~ ancestor h a a.

Definition one_parent (h : list AgentConfig) : Prop :=
  forall a b c, edge h a c -> edge h b c -> a = b.

Definition is_tree (h : list AgentConfig) : Prop :=
  acyclic h /\ one_parent h.

(** Every reference of the heap points to an older object. *)
Definition downward (h : list AgentConfig) : Prop :=
  forall a b, edge h a b -> b < a.

(** The three agents of [runAgent] for a model, in the order of creation. *)
Definition hotelTool : Tool := {| TConfig := hotelToolConfig; THandler := HBookHotel |}.
Definition flightTool : Tool := {| TConfig := flightToolConfig; THandler := HBookFlight |}.

Definition booker (m : Model) : AgentConfig :=
  {| Name := "Booker";
     Description := "Handles flight and hotel bookings. Use your tools for any booking request.";
     Instruction := "";
     AModel := m;
     Tools := [hotelTool; flightTool];
     SubAgents := [] |}.

Definition info (m : Model) : AgentConfig :=
  {| Name := "Info";
     Description := "Provides general information and answers questions.";
     Instruction := "";
     AModel := m;
     Tools := [];
     SubAgents := [] |}.

Definition coordinator (m : Model) : AgentConfig :=
  {| Name := "Coordinator";
     Description := "Main coordinator.";
     Instruction := "You are an assistant. Delegate booking tasks to Booker and info requests to Info.";
     AModel := m;
     Tools := [];
     SubAgents := [0; 1] |}.

Definition agent_table (m : Model) : list AgentConfig :=
  [booker m; info m; coordinator m].

Definition flash (key : string) : Model :=
  {| ModelName := "gemini-2.5-flash"; APIKey := key |}.


(** The key the program reads once the .env file has been loaded. *)
Definition loaded_key (w : World) (vars : gmap string string) : option string :=
  (environ w ∪ vars) !! "API_KEY".

(** The credential the model client needs is not there: the .env file does
    not load, or API_KEY is absent or empty afterwards. *)
Definition credential_missing (w : World) : Prop :=
  match dotenv w with
  | inl _ => True
  | inr vars => loaded_key w vars = None \/ loaded_key w vars = Some ""
  end.


(** The process after [out] has gone to standard output and the steps
    [ps] have been pulled. *)
Definition emit (out : list string) (ps : list Step) (st : Process) : Process :=
  {| env := env st; stdout := stdout st ++ out; stderr := stderr st;
     agents := agents st; submitted := submitted st;
     pulled := pulled st ++ ps |}.

(** The process when startup is through: the environment after the .env
    file, the three agents on the heap, nothing written or submitted. *)
Definition ready (e : gmap string string) (key : string) : Process :=
  {| env := e; stdout := []; stderr := []; agents := agent_table (flash key);
     submitted := []; pulled := [] |}.

Definition the_runner : RunnerConfig :=
  {| AppName := "booking_planner"; Agent := 2 |}.

(** The entry of the standard logger for an error of the event sequence. *)
Definition fatal_entry (w : World) (e : string) : string :=
  log_header w ++ log_entry ("ERROR during agent execution: " ++ e).

(** The three runs at the end of [runAgent], and how [main] and the
    runtime turn their outcome into that of the process. *)
Definition session_runs (w : World) (sessionID : string) : Proc (option string) :=
  run w the_runner sessionID "i want to visit in london?" >>
  run w the_runner sessionID "on 2025-11-14" >>
  run w the_runner sessionID "also book a hotel for me " >>
  ret None.

Definition finish {A} (r : (A + Termination) * Process) : Termination * Process :=
  match r with
  | (inl _, st) => (Exited 0, st)
  | (inr t, st) => (t, st)
  end.

(** The names of the sub-agents of an agent of the heap. *)
Definition sub_agent_names (h : list AgentConfig) (c : AgentConfig) : list (option string) :=
  (fun r => Name <$> h !! r) <$> SubAgents c.

(** A computation that leaves the heap of agents as it finds it. *)
Definition keeps_agents {A} (m : Proc A) : Prop :=
  forall st, agents (snd (m st)) = agents st.

(** ** Sample inputs *)

Definition ctx_sample : Context :=
  {| InvocationID := "e-1"; AgentName := "Booker"; FunctionCallID := "call-1" |}.

Definition ctx_other : Context :=
  {| InvocationID := "e-2"; AgentName := "Info"; FunctionCallID := "call-2" |}.

Definition london : Hotel.bookHotelArg :=
  {| Hotel.Location := "London"; Hotel.Date := "2025-11-14" |}.

Definition paris_london : Flight.bookFlightArg :=
  {| Flight.Origin := "Paris"; Flight.Destination := "London";
     Flight.Date := "2025-11-14" |}.

Definition text_part (t : string) : option Part :=
  Some {| Text := t; Payload := None |}.

Definition event_of (parts : list (option Part)) : Event :=
  {| Author := "Booker";
     EContent := Some {| Parts := parts; Role := "model" |} |}.

(** A world in which startup succeeds, with the given event sequences. *)
Definition sample_world (steps : list Submission -> Submission -> list Step) : World :=
  {| argv := ["agent_kit_sample"];
     environ := {[ "API_KEY" := "secret" ]};
     dotenv := inr ∅;
     gemini_NewModel_err := fun _ _ => None;
     functiontool_New_err := fun _ _ => None;
     llmagent_New_err := fun _ => None;
     runner_New_err := fun _ => None;
     session_Create_res := fun _ _ => inr "session-1";
     run_steps := steps;
     log_header := "2025/11/14 10:00:00 " |}.

(** The end-to-end scenario: a question back, nothing to say, then the
    hotel is booked. *)
Definition booking_steps (hist : list Submission) (s : Submission) : list Step :=
  match hist with
  | [] => [Yield (Some (event_of [text_part "Which day?"])) None]
  | [_] => [Yield (Some (event_of [text_part ""])) None]
  | _ => [Invoke ctx_sample (CallBookHotel london);
          Yield (Some (event_of [text_part "Booked: CONF_HOTEL_98765"])) None]
  end.



(** The first run meets an event without parts after one it can print. *)
Definition empty_parts_steps (hist : list Submission) (s : Submission) : list Step :=
  match hist with
  | [] => [Yield (Some (event_of [text_part "one"])) None;
           Yield (Some (event_of [])) None;
           Yield (Some (event_of [text_part "never seen"])) None]
  | _ => []
  end.

(** A world without credential. *)
Definition bare_world : World :=
  {| argv := ["agent_kit_sample"];
     environ := ∅;
     dotenv := inr ∅;
     gemini_NewModel_err := fun _ _ => None;
     functiontool_New_err := fun _ _ => None;
     llmagent_New_err := fun _ => None;
     runner_New_err := fun _ => None;
     session_Create_res := fun _ _ => inr "session-1";
     run_steps := fun _ _ => [];
     log_header := "2025/11/14 10:00:00 " |}.

(** ** Startup, stage by stage *)

(** The process that startup leaves behind when it ends it: one entry on
    standard error, the agents created so far, nothing else. *)
Definition halted (e : gmap string string) (h : list AgentConfig) (line : string) : Process :=
  {| env := e; stdout := []; stderr := [line]; agents := h;
     submitted := []; pulled := [] |}.

(** How far startup gets: [runAgent] returns an error to [main], or the
    logger ends the process, or the first prompt is reached. *)
Inductive Startup :=
| Failed (msg : string) (e : gmap string string) (h : list AgentConfig)
| Fatal (msg : string) (e : gmap string string) (key : string)
| Ready (e : gmap string string) (key sessionID : string).

(** The stages of [runAgent] from the model to the session, read off the
    answers of the world in the order in which the program asks for them. *)
Definition construct (w : World) (en : gmap string string) (key : string) : Startup :=
  match gemini_NewModel_err w "gemini-2.5-flash" key with
  | Some e => Failed ("creating Gemini model: " ++ e) en []
  | None =>
  match functiontool_New_err w hotelToolConfig HBookHotel with
  | Some e => Failed ("creating hotel tool: " ++ e) en []
  | None =>
  match functiontool_New_err w flightToolConfig HBookFlight with
  | Some e => Failed ("creating flight tool: " ++ e) en []
  | None =>
  match llmagent_New_err w (booker (flash key)) with
  | Some e => Failed ("creating booking agent: " ++ e) en []
  | None =>
  match llmagent_New_err w (info (flash key)) with
  | Some e => Failed ("creating info agent: " ++ e) en [booker (flash key)]
  | None =>
  match llmagent_New_err w (coordinator (flash key)) with
  | Some e =>
      Failed ("creating coordinator agent: " ++ e) en
        [booker (flash key); info (flash key)]
  | None =>
  match runner_New_err w the_runner with
  | Some e => Fatal e en key
  | None =>
  match session_Create_res w "booking_planner" "user1234" with
  | inl e => Fatal e en key
  | inr sid => Ready en key sid
  end end end end end end end end.

(** The stages before: the .env file and the key. *)
Definition startup (w : World) : Startup :=
  match dotenv w with
  | inl e => Failed ("loading .env file: " ++ e) (environ w) []
  | inr vars =>
      let en := environ w ∪ vars in
      let key := default "" (en !! "API_KEY") in
      if String.eqb key "" then
        Failed "API_KEY environment variable is not set" en []
      else construct w en key
  end.

Definition outcome (w : World) (s : Startup) : Termination * Process :=
  match s with
  | Failed msg e h => (Exited 1, halted e h ("Error: " ++ msg ++ nl))
  | Fatal msg e key =>
      (Exited 1, halted e (agent_table (flash key)) (log_header w ++ log_entry msg))
  | Ready e key sid => finish (session_runs w sid (ready e key))
  end.

(** The credential is there: the .env file loads and API_KEY has the
    non-empty value [key] afterwards. *)
Definition keyed (w : World) (vars : gmap string string) (key : string) : Prop :=
  dotenv w = inr vars /\ loaded_key w vars = Some key /\ key <> "".

(** The model and the two tools are created. *)
Definition equipped (w : World) (key : string) : Prop :=
  gemini_NewModel_err w "gemini-2.5-flash" key = None
  /\ functiontool_New_err w hotelToolConfig HBookHotel = None
  /\ functiontool_New_err w flightToolConfig HBookFlight = None.

(** The three agents are created. *)
Definition staffed (w : World) (key : string) : Prop :=
  llmagent_New_err w (booker (flash key)) = None
  /\ llmagent_New_err w (info (flash key)) = None
  /\ llmagent_New_err w (coordinator (flash key)) = None.

(** The steps of the run of a prompt from a state of the process. *)
Definition steps_of (w : World) (sessionID prompt : string) (st : Process) : list Step :=
  run_steps w (submitted st) (submission sessionID prompt).

(** ** More sample inputs *)

(** A world in which everything but the given constructors succeeds. *)
Definition faulty_world (model_err : option string)
    (tool_err : HandlerRef -> option string)
    (agent_err : string -> option string)
    (runner_err : option string) (session : string + string) : World :=
  {| argv := ["agent_kit_sample"];
     environ := {[ "API_KEY" := "secret" ]};
     dotenv := inr ∅;
     gemini_NewModel_err := fun _ _ => model_err;
     functiontool_New_err := fun _ h => tool_err h;
     llmagent_New_err := fun cfg => agent_err (Name cfg);
     runner_New_err := fun _ => runner_err;
     session_Create_res := fun _ _ => session;
     run_steps := fun _ _ => [];
     log_header := "2025/11/14 10:00:00 " |}.

(** The first run meets a nil event, a nil content or a nil part. *)
Definition nil_event_steps (hist : list Submission) (s : Submission) : list Step :=
  match hist with
  | [] => [Yield None None]
  | _ => []
  end.

(** * Properties *)

(** ** The handlers *)

Lemma append_cons (x : ascii) (a b : string) :
  String x a ++ b = String x (a ++ b).
Proof. reflexivity. Qed.

Lemma append_assoc (a b c : string) : (a ++ b) ++ c = a ++ b ++ c.
Proof.
  induction a as [|x a IH]; [reflexivity|].
  rewrite !append_cons. now rewrite IH.
Qed.

Lemma append_nil_r (a : string) : a ++ "" = a.
Proof.
  induction a as [|x a IH]; [reflexivity|].
  rewrite append_cons. now rewrite IH.
Qed.

Lemma Contains_app_r (pre s sub : string) :
  Contains s sub -> Contains (pre ++ s) sub.
Proof.
  intros (a & b & ->). exists (pre ++ a), b.
  now rewrite append_assoc.
Qed.

Lemma Contains_suffix (pre sub : string) : Contains (pre ++ sub) sub.
Proof.
  apply Contains_app_r. exists "", "".
  change ("" ++ sub ++ "") with (sub ++ ""). now rewrite append_nil_r.
Qed.

Lemma hotel_echo_eq (arg : Hotel.bookHotelArg) :
  Sprintf "%v" [VStruct [Hotel.Location arg; Hotel.Date arg]] = hotel_echo arg.
Proof.
  change (Sprintf "%v" [VStruct [Hotel.Location arg; Hotel.Date arg]])
    with (String "{" (((Hotel.Location arg ++ " " ++ Hotel.Date arg) ++ "}") ++ "")).
  now rewrite append_nil_r, !append_assoc.
Qed.

Lemma flight_echo_eq (arg : Flight.bookFlightArg) :
  Sprintf "%v"
    [VStruct [Flight.Origin arg; Flight.Destination arg; Flight.Date arg]]
  = flight_echo arg.
Proof.
  change (Sprintf "%v"
    [VStruct [Flight.Origin arg; Flight.Destination arg; Flight.Date arg]])
    with (String "{" (((Flight.Origin arg ++ " " ++ Flight.Destination arg
                          ++ " " ++ Flight.Date arg) ++ "}") ++ "")).
  now rewrite append_nil_r, !append_assoc.
Qed.

Lemma bookHotel_eq (c : Context) (arg : Hotel.bookHotelArg) (st : Process) :
  bookHotel c arg st =
    (inl {| Hotel.Status := "success";
            Hotel.Report := "Hotel booked in " ++ Hotel.Location arg ++ " on "
                              ++ Hotel.Date arg
                              ++ ". Confirmation: CONF_HOTEL_98765";
            Hotel.ErrorMessage := "" |},
     add_stdout (hotel_echo arg) st).
Proof.
  unfold bookHotel, fmt_Printf, modify, bind, ret.
  now rewrite hotel_echo_eq.
Qed.

Lemma bookFlight_eq (c : Context) (arg : Flight.bookFlightArg) (st : Process) :
  bookFlight c arg st =
    (inl {| Flight.Status := "success";
            Flight.Report := "Flight booked from " ++ Flight.Origin arg ++ " to "
                               ++ Flight.Destination arg ++ " on "
                               ++ Flight.Date arg
                               ++ ". Confirmation: CONF_FLIGHT_12345";
            Flight.ErrorMessage := "" |},
     add_stdout (flight_echo arg) st).
Proof.
  unfold bookFlight, fmt_Printf, modify, bind, ret.
  now rewrite flight_echo_eq.
Qed.

Example bookHotel_london :
  bookHotel ctx_sample london (start bare_world)
  = (inl {| Hotel.Status := "success";
            Hotel.Report :=
              "Hotel booked in London on 2025-11-14. Confirmation: CONF_HOTEL_98765";
            Hotel.ErrorMessage := "" |},
     add_stdout "{London 2025-11-14}" (start bare_world)).
Proof. reflexivity. Qed.

Example bookFlight_paris_london :
  bookFlight ctx_other paris_london (start bare_world)
  = (inl {| Flight.Status := "success";
            Flight.Report :=
              "Flight booked from Paris to London on 2025-11-14. Confirmation: CONF_FLIGHT_12345";
            Flight.ErrorMessage := "" |},
     add_stdout "{Paris London 2025-11-14}" (start bare_world)).
Proof. reflexivity. Qed.

Example Sprintf_missing_operand :
  Sprintf "%s and %s" [VString "one"] = "one and %!s(MISSING)".
Proof. reflexivity. Qed.

(** ** The loop over the events *)

Lemma emit_nil (st : Process) : emit [] [] st = st.
Proof. destruct st. unfold emit. simpl. now rewrite !app_nil_r. Qed.

Lemma emit_emit (o1 o2 : list string) (p1 p2 : list Step) (st : Process) :
  emit o2 p2 (emit o1 p1 st) = emit (o1 ++ o2) (p1 ++ p2) st.
Proof. unfold emit. simpl. now rewrite !app_assoc. Qed.

Lemma add_stdout_emit (s : string) (st : Process) :
  add_stdout s st = emit [s] [] st.
Proof. unfold add_stdout, emit. now rewrite app_nil_r. Qed.

Lemma add_pulled_emit (s : Step) (st : Process) :
  add_pulled s st = emit [] [s] st.
Proof. unfold add_pulled, emit. now rewrite app_nil_r. Qed.

Lemma response_line (t : string) :
  Sprintf ("Agent Response: %s" ++ nl) [VString t] = "Agent Response: " ++ t ++ nl.
Proof. reflexivity. Qed.

Lemma fatal_line (e : string) :
  Sprintf "ERROR during agent execution: %v" [VError e]
  = "ERROR during agent execution: " ++ e.
Proof.
  change (Sprintf "ERROR during agent execution: %v" [VError e])
    with ("ERROR during agent execution: " ++ e ++ "").
  now rewrite append_nil_r.
Qed.

Lemma prompt_line (p : string) :
  Sprintf (nl ++ "> %s" ++ nl) [VString p] = nl ++ "> " ++ p ++ nl.
Proof. reflexivity. Qed.

Section Loop.

Variable w : World.

Lemma run_body_text (event : option Event) (t : string) (st : Process) :
  first_text event = Some t ->
  run_body w event None st
  = (inl tt, emit (step_output (Yield event None)) [] st).
Proof.
  intros H. unfold step_output. rewrite H.
  destruct event as [ev|]; [|discriminate]. simpl in H.
  unfold run_body, deref, index0, bind, ret.
  destruct (EContent ev) as [c|]; [|discriminate].
  destruct (Parts c) as [|[part|] ps]; try discriminate.
  injection H as <-. simpl.
  destruct (String.eqb (Text part) ""); simpl.
  - now rewrite emit_nil.
  - unfold fmt_Printf, modify. now rewrite response_line, add_stdout_emit.
Qed.

Lemma run_body_error (event : option Event) (e : string) (st : Process) :
  run_body w event (Some e) st
  = (inr (Exited 1), add_stderr (fatal_entry w e) st).
Proof.
  unfold run_body, log_Fatalf, os_Exit, terminate, modify, bind, fatal_entry.
  now rewrite fatal_line.
Qed.

Lemma invoke_eq (c : Context) (call : ToolCall) (st : Process) :
  invoke c call st = (inl tt, emit (step_output (Invoke c call)) [] st).
Proof.
  destruct call as [arg|arg]; unfold invoke, bind, ret.
  - now rewrite bookHotel_eq, add_stdout_emit.
  - now rewrite bookFlight_eq, add_stdout_emit.
Qed.

Lemma range_events_cons (s : Step) (rest : list Step) (st : Process) :
  range_events w (s :: rest) st
  = match (match s with
           | Invoke c call => invoke c call
           | Yield event err => run_body w event err
           end) (add_pulled s st) with
    | (inl _, st') => range_events w rest st'
    | (inr t, st') => (inr t, st')
    end.
Proof. reflexivity. Qed.

Lemma step_ok_eq (s : Step) (st : Process) :
  step_ok s = true ->
  (match s with
   | Invoke c call => invoke c call
   | Yield event err => run_body w event err
   end) st = (inl tt, emit (step_output s) [] st).
Proof.
  destruct s as [c call|event [e|]]; intros H.
  - apply invoke_eq.
  - discriminate H.
  - unfold step_ok in H.
    destruct (first_text event) as [t|] eqn:E; [|discriminate].
    now apply run_body_text with (t := t).
Qed.

Lemma range_events_ok (steps : list Step) (st : Process) :
  forallb step_ok steps = true ->
  range_events w steps st
  = (inl tt, emit (concat (step_output <$> steps)) steps st).
Proof.
  revert st. induction steps as [|s rest IH]; intros st H.
  - simpl. unfold ret. now rewrite emit_nil.
  - simpl in H. apply andb_true_iff in H as [Hs Hrest].
    rewrite range_events_cons, step_ok_eq by assumption.
    rewrite IH by assumption.
    rewrite add_pulled_emit, !emit_emit. reflexivity.
Qed.

(** An error ends the loop, and the process, at the step that brings it. *)
Lemma range_events_error (pre post : list Step) (event : option Event)
    (e : string) (st : Process) :
  forallb step_ok pre = true ->
  range_events w (pre ++ Yield event (Some e) :: post) st
  = (inr (Exited 1),
     add_stderr (fatal_entry w e)
       (emit (concat (step_output <$> pre)) (pre ++ [Yield event (Some e)]) st)).
Proof.
  revert st. induction pre as [|s pre IH]; intros st H.
  - rewrite app_nil_l, range_events_cons, run_body_error.
    now rewrite add_pulled_emit.
  - simpl in H. apply andb_true_iff in H as [Hs Hpre].
    rewrite <- app_comm_cons, range_events_cons, step_ok_eq by assumption.
    rewrite IH by assumption.
    now rewrite add_pulled_emit, !emit_emit.
Qed.

(** An event without error whose first part cannot be read ends the
    loop, and the process, in a panic. *)
Lemma run_body_unreadable (event : option Event) (st : Process) :
  first_text event = None ->
  exists reason, run_body w event None st = (inr (Panicked reason), st).
Proof.
  intros H. unfold run_body, deref, index0, bind, ret, panic, terminate.
  destruct event as [ev|]; [|eauto]. simpl in H.
  destruct (EContent ev) as [c|]; [|eauto].
  destruct (Parts c) as [|[part|] ps]; simpl; [eauto|discriminate|eauto].
Qed.

Lemma range_events_panic (pre post : list Step) (event : option Event)
    (reason : string) (st : Process) :
  forallb step_ok pre = true ->
  (forall st', run_body w event None st' = (inr (Panicked reason), st')) ->
  range_events w (pre ++ Yield event None :: post) st
  = (inr (Panicked reason),
     emit (concat (step_output <$> pre)) (pre ++ [Yield event None]) st).
Proof.
  revert st. induction pre as [|s pre IH]; intros st H Hbody.
  - rewrite app_nil_l, range_events_cons, Hbody.
    now rewrite add_pulled_emit.
  - simpl in H. apply andb_true_iff in H as [Hs Hpre].
    rewrite <- app_comm_cons, range_events_cons, step_ok_eq by assumption.
    rewrite IH by assumption.
    now rewrite add_pulled_emit, !emit_emit.
Qed.

Lemma run_eq (r : RunnerConfig) (sid p : string) (st : Process) :
  run w r sid p st
  = range_events w (run_steps w (submitted st) (submission sid p))
      (add_submitted (submission sid p) (emit [nl ++ "> " ++ p ++ nl] [] st)).
Proof.
  unfold run, fmt_Printf, Runner_Run, modify, get, bind, ret.
  now rewrite prompt_line, add_stdout_emit.
Qed.

Lemma run_ok (r : RunnerConfig) (sid p : string) (st : Process) :
  forallb step_ok (run_steps w (submitted st) (submission sid p)) = true ->
  run w r sid p st
  = (inl tt,
     emit (concat (step_output <$> run_steps w (submitted st) (submission sid p)))
       (run_steps w (submitted st) (submission sid p))
       (add_submitted (submission sid p) (emit [nl ++ "> " ++ p ++ nl] [] st))).
Proof. intros H. rewrite run_eq. now apply range_events_ok. Qed.

End Loop.

(** ** Startup *)


(** ** What leaves the heap of agents alone *)

Lemma keeps_ret {A} (a : A) : keeps_agents (ret a).
Proof. intros st. reflexivity. Qed.

Lemma keeps_terminate {A} (t : Termination) : keeps_agents (@terminate A t).
Proof. intros st. reflexivity. Qed.

Lemma keeps_bind {A B} (m : Proc A) (k : A -> Proc B) :
  keeps_agents m -> (forall a, keeps_agents (k a)) -> keeps_agents (bind m k).
Proof.
  intros Hm Hk st. unfold bind. specialize (Hm st).
  destruct (m st) as [[a|t] st']; simpl in *.
  - now rewrite Hk.
  - assumption.
Qed.

Lemma keeps_modify (f : Process -> Process) :
  (forall st, agents (f st) = agents st) -> keeps_agents (modify f).
Proof. intros H st. apply H. Qed.

Lemma keeps_get : keeps_agents get.
Proof. intros st. reflexivity. Qed.

Create HintDb keeps.
#[local] Hint Resolve keeps_ret keeps_terminate keeps_bind keeps_modify keeps_get : keeps.

Lemma keeps_Printf (format : string) (args : list Value) :
  keeps_agents (fmt_Printf format args).
Proof. apply keeps_modify. reflexivity. Qed.

Lemma keeps_deref {A} (p : option A) : keeps_agents (deref p).
Proof. destruct p; intros st; reflexivity. Qed.

Lemma keeps_index0 {A} (l : list A) : keeps_agents (index0 l).
Proof. unfold index0. destruct (l !! 0); intros st; reflexivity. Qed.

#[local] Hint Resolve keeps_Printf keeps_deref keeps_index0 : keeps.

Lemma keeps_bookHotel (c : Context) (arg : Hotel.bookHotelArg) :
  keeps_agents (bookHotel c arg).
Proof. unfold bookHotel. auto with keeps. Qed.

Lemma keeps_bookFlight (c : Context) (arg : Flight.bookFlightArg) :
  keeps_agents (bookFlight c arg).
Proof. unfold bookFlight. auto with keeps. Qed.

#[local] Hint Resolve keeps_bookHotel keeps_bookFlight : keeps.

Lemma keeps_invoke (c : Context) (call : ToolCall) : keeps_agents (invoke c call).
Proof. destruct call; unfold invoke; auto with keeps. Qed.

Lemma keeps_log_Fatalf {A} (w : World) (format : string) (args : list Value) :
  keeps_agents (@log_Fatalf w A format args).
Proof.
  unfold log_Fatalf, os_Exit. apply keeps_bind; [|auto with keeps].
  apply keeps_modify. reflexivity.
Qed.

Lemma keeps_run_body (w : World) (event : option Event) (err : option string) :
  keeps_agents (run_body w event err).
Proof.
  unfold run_body. destruct err as [e|]; [apply keeps_log_Fatalf|].
  repeat (apply keeps_bind; [auto with keeps|intros ?]).
  destruct (negb _); auto with keeps.
Qed.

Lemma keeps_range_events (w : World) (events : list Step) :
  keeps_agents (range_events w events).
Proof.
  induction events as [|s rest IH]; [apply keeps_ret|].
  simpl. apply keeps_bind; [apply keeps_modify; reflexivity|intros _].
  apply keeps_bind; [|intros _; exact IH].
  destruct s; [apply keeps_invoke|apply keeps_run_body].
Qed.

Lemma keeps_run (w : World) (r : RunnerConfig) (sid p : string) :
  keeps_agents (run w r sid p).
Proof.
  unfold run. apply keeps_bind; [auto with keeps|intros _].
  apply keeps_bind; [|intros ?; apply keeps_range_events].
  unfold Runner_Run. apply keeps_bind; [auto with keeps|intros ?].
  apply keeps_bind; [apply keeps_modify; reflexivity|auto with keeps].
Qed.

Lemma keeps_runs (w : World) (r : RunnerConfig) (sid : string) :
  keeps_agents
    (run w r sid "i want to visit in london?" >>
     run w r sid "on 2025-11-14" >>
     run w r sid "also book a hotel for me " >>
     ret (@None string)).
Proof.
  repeat (apply keeps_bind; [apply keeps_run|intros _]). apply keeps_ret.
Qed.

(** Wherever startup stops, the heap holds the first agents of the table. *)
Lemma runAgent_agents (w : World) :
  exists n key,
    agents (snd (runAgent w (start w))) = take n (agent_table (flash key)).
Proof.
  unfold runAgent.
  cbv beta iota delta [bind ret get modify godotenv_Load os_Getenv
    gemini_NewModel functiontool_New llmagent_New runner_New
    sessionService_Create log_Fatal os_Exit terminate].
  destruct (dotenv w) as [e|vars]; [exists 0, ""; reflexivity|].
  cbv beta iota delta [env set_env start].
  set (key := default "" ((environ w ∪ vars) !! "API_KEY")).
  destruct (String.eqb key ""); [exists 0, ""; reflexivity|].
  destruct (gemini_NewModel_err w _ key); [exists 0, ""; reflexivity|].
  destruct (functiontool_New_err w _ _); [exists 0, ""; reflexivity|].
  destruct (functiontool_New_err w _ _); [exists 0, ""; reflexivity|].
  destruct (llmagent_New_err w _); [exists 0, ""; reflexivity|].
  cbv beta iota delta [add_agent env stdout stderr agents submitted pulled
    length app].
  destruct (llmagent_New_err w _); [exists 1, key; reflexivity|].
  cbv beta iota delta [add_agent env stdout stderr agents submitted pulled
    length app].
  destruct (llmagent_New_err w _); [exists 2, key; reflexivity|].
  cbv beta iota delta [add_agent env stdout stderr agents submitted pulled
    length app].
  destruct (runner_New_err w _); [exists 3, key; reflexivity|].
  destruct (session_Create_res w _ _) as [e|sid]; [exists 3, key; reflexivity|].
  exists 3, key.
  exact (keeps_runs w the_runner sid (ready (environ w ∪ vars) key)).
Qed.

Lemma exec_agents (w : World) :
  agents (snd (exec w)) = agents (snd (runAgent w (start w))).
Proof.
  unfold exec, main, bind.
  destruct (runAgent w (start w)) as [[[e|]|t] st]; reflexivity.
Qed.

(** ** The agent graph *)

Lemma downward_ancestor (h : list AgentConfig) (a b : AgentRef) :
  downward h -> ancestor h a b -> b < a.
Proof.
  intros Hd Hanc. induction Hanc as [a b Hab|a b c Hab _ IH].
  - now apply Hd.
  - apply Hd in Hab. lia.
Qed.

Lemma downward_acyclic (h : list AgentConfig) : downward h -> acyclic h.
Proof.
  intros Hd a Hanc. apply (downward_ancestor h a a Hd) in Hanc. lia.
Qed.

(** The only edges of the table go from the third agent to the first two. *)
Lemma edge_table (n : nat) (m : Model) (a b : AgentRef) :
  edge (take n (agent_table m)) a b -> a = 2 /\ (b = 0 \/ b = 1).
Proof.
  intros (c & Hl & Hb). apply lookup_take_Some in Hl as [Hl _].
  destruct a as [|[|[|a]]]; simpl in Hl; try discriminate;
    injection Hl as <-; simpl in Hb.
  - now apply elem_of_nil in Hb.
  - now apply elem_of_nil in Hb.
  - split; [reflexivity|].
    apply elem_of_cons in Hb as [->|Hb]; [now left|].
    apply elem_of_cons in Hb as [->|Hb]; [now right|].
    now apply elem_of_nil in Hb.
Qed.

Lemma table_is_tree (n : nat) (m : Model) : is_tree (take n (agent_table m)).
Proof.
  split.
  - apply downward_acyclic. intros a b Hab.
    apply edge_table in Hab as [-> [->| ->]]; lia.
  - intros a b c Ha Hb.
    apply edge_table in Ha as [-> _]. apply edge_table in Hb as [-> _].
    reflexivity.
Qed.

(** ** The three runs *)

Lemma session_runs_no_error (w : World) (sid e : string) (st st' : Process) :
  session_runs w sid st <> (inl (Some e), st').
Proof.
  unfold session_runs, bind, ret.
  destruct (run w the_runner sid "i want to visit in london?" st) as [[[]|t] st1];
    [|discriminate].
  destruct (run w the_runner sid "on 2025-11-14" st1) as [[[]|t] st2];
    [|discriminate].
  destruct (run w the_runner sid "also book a hotel for me " st2) as [[[]|t] st3];
    discriminate.
Qed.



(** ** Startup failures *)

Lemma error_line (msg : string) :
  Sprintf ("Error: %v" ++ nl) [VError msg] = "Error: " ++ msg ++ nl.
Proof. reflexivity. Qed.

Lemma dotenv_error (e : string) :
  Errorf "loading .env file: %w" [VError e] = "loading .env file: " ++ e.
Proof.
  change (Errorf "loading .env file: %w" [VError e])
    with ("loading .env file: " ++ e ++ "").
  now rewrite append_nil_r.
Qed.

Lemma exec_dotenv_fails (w : World) (e : string) :
  dotenv w = inl e ->
  exec w = (Exited 1,
            add_stderr ("Error: " ++ ("loading .env file: " ++ e) ++ nl) (start w)).
Proof.
  intros H. unfold exec, main, runAgent, godotenv_Load. rewrite H.
  cbv beta iota delta [bind ret modify fmt_Fprintf_Stderr os_Exit terminate].
  now rewrite error_line, dotenv_error.
Qed.

Lemma exec_key_missing (w : World) (vars : gmap string string) :
  dotenv w = inr vars ->
  default "" (loaded_key w vars) = "" ->
  exec w = (Exited 1,
            add_stderr ("Error: " ++ "API_KEY environment variable is not set" ++ nl)
              (set_env (environ w ∪ vars) (start w))).
Proof.
  intros H Hkey. unfold loaded_key in Hkey.
  unfold exec, main, runAgent, godotenv_Load, os_Getenv. rewrite H.
  cbv beta iota delta [bind ret get modify fmt_Fprintf_Stderr os_Exit terminate].
  cbv beta iota delta [env set_env start].
  rewrite Hkey. reflexivity.
Qed.

(** The coordinator is on the heap only when the whole table is. *)
Lemma coordinator_in_heap (w : World) (c : AgentConfig) :
  c ∈ agents (snd (exec w)) ->
  Name c = "Coordinator" ->
  exists key,
    agents (snd (exec w)) = agent_table (flash key) /\ c = coordinator (flash key).
Proof.
  rewrite exec_agents. destruct (runAgent_agents w) as (n & key & ->).
  intros Hin Hname. exists key.
  destruct n as [|[|[|n]]]; simpl in Hin.
  - now apply elem_of_nil in Hin.
  - apply elem_of_cons in Hin as [->|Hin]; [discriminate Hname|].
    now apply elem_of_nil in Hin.
  - apply elem_of_cons in Hin as [->|Hin]; [discriminate Hname|].
    apply elem_of_cons in Hin as [->|Hin]; [discriminate Hname|].
    now apply elem_of_nil in Hin.
  - apply elem_of_cons in Hin as [->|Hin]; [discriminate Hname|].
    apply elem_of_cons in Hin as [->|Hin]; [discriminate Hname|].
    apply elem_of_cons in Hin as [->|Hin];
      [|rewrite take_nil in Hin; now apply elem_of_nil in Hin].
    split; [|reflexivity]. simpl. now rewrite take_nil.
Qed.

Lemma sample_coordinator :
  coordinator (flash "secret") ∈ agents (snd (exec (sample_world booking_steps))).
Proof.
  change (agents (snd (exec (sample_world booking_steps))))
    with (agent_table (flash "secret")).
  apply elem_of_cons. right. apply elem_of_cons. right.
  apply elem_of_cons. now left.
Qed.

(** ** A run that does not come to its end *)

Lemma run_error (w : World) (r : RunnerConfig) (sid p : string) (st : Process)
    (pre post : list Step) (event : option Event) (e : string) :
  run_steps w (submitted st) (submission sid p)
  = (pre ++ Yield event (Some e) :: post)%list ->
  forallb step_ok pre = true ->
  run w r sid p st
  = (inr (Exited 1),
     add_stderr (fatal_entry w e)
       (emit (concat (step_output <$> pre)) (pre ++ [Yield event (Some e)])
          (add_submitted (submission sid p) (emit [nl ++ "> " ++ p ++ nl] [] st)))).
Proof.
  intros Hs Hpre. rewrite run_eq, Hs. now apply range_events_error.
Qed.

Lemma run_panic (w : World) (r : RunnerConfig) (sid p : string) (st : Process)
    (pre post : list Step) (event : option Event) (reason : string) :
  run_steps w (submitted st) (submission sid p)
  = (pre ++ Yield event None :: post)%list ->
  forallb step_ok pre = true ->
  (forall st', run_body w event None st' = (inr (Panicked reason), st')) ->
  run w r sid p st
  = (inr (Panicked reason),
     emit (concat (step_output <$> pre)) (pre ++ [Yield event None])
       (add_submitted (submission sid p) (emit [nl ++ "> " ++ p ++ nl] [] st))).
Proof.
  intros Hs Hpre Hbody. rewrite run_eq, Hs. now apply range_events_panic.
Qed.

Lemma run_body_no_parts (w : World) (ev : Event) (c : Content) (st : Process) :
  EContent ev = Some c ->
  Parts c = [] ->
  run_body w (Some ev) None st = (inr (Panicked index_out_of_range), st).
Proof.
  intros Hc Hp. unfold run_body, deref, index0, bind, ret, panic, terminate.
  rewrite Hc, Hp. reflexivity.
Qed.

(** * The claims *)

(** C1. For every location and date, [bookHotel] returns the result with
    status "success", an empty error message and the report
    "Hotel booked in <location> on <date>. Confirmation: CONF_HOTEL_98765";
    the report therefore contains "CONF_HOTEL_98765". *)
Theorem bookHotel_result (c : Context) (location date : string) (st : Process) :
  exists r,
    fst (bookHotel c {| Hotel.Location := location; Hotel.Date := date |} st)
    = inl r
    /\ Hotel.Status r = "success"
    /\ Hotel.ErrorMessage r = ""
    /\ Hotel.Report r = "Hotel booked in " ++ location ++ " on " ++ date
                          ++ ". Confirmation: CONF_HOTEL_98765"
    /\ Contains (Hotel.Report r) "CONF_HOTEL_98765".
Proof.
  rewrite bookHotel_eq. eexists. split; [reflexivity|].
  repeat split. simpl.
  replace ("Hotel booked in " ++ location ++ " on " ++ date
             ++ ". Confirmation: CONF_HOTEL_98765")
    with (("Hotel booked in " ++ location ++ " on " ++ date
             ++ ". Confirmation: ") ++ "CONF_HOTEL_98765").
  - apply Contains_suffix.
  - now rewrite !append_assoc.
Qed.

(** C2. For every origin, destination and date, [bookFlight] returns the
    result with status "success", an empty error message and the report
    "Flight booked from <origin> to <destination> on <date>. Confirmation:
    CONF_FLIGHT_12345", whatever the argument is: nothing is validated,
    retried or booked, and the process goes on. *)
Theorem bookFlight_result (c : Context) (origin destination date : string)
    (st : Process) :
  let arg := {| Flight.Origin := origin; Flight.Destination := destination;
                Flight.Date := date |} in
  fst (bookFlight c arg st)
  = inl {| Flight.Status := "success";
           Flight.Report := "Flight booked from " ++ origin ++ " to "
                              ++ destination ++ " on " ++ date
                              ++ ". Confirmation: CONF_FLIGHT_12345";
           Flight.ErrorMessage := "" |}.
Proof. intros arg. now rewrite bookFlight_eq. Qed.



(** C10. The handlers are functions of their argument alone: the context
    does not matter to anything they do, and the result does not depend on
    the state of the process either, so equal arguments give equal
    results. *)
Theorem handlers_ignore_context (c1 c2 : Context) (h : Hotel.bookHotelArg)
    (f : Flight.bookFlightArg) (st1 st2 : Process) :
  bookHotel c1 h st1 = bookHotel c2 h st1
  /\ bookFlight c1 f st1 = bookFlight c2 f st1
  /\ fst (bookHotel c1 h st1) = fst (bookHotel c2 h st2)
  /\ fst (bookFlight c1 f st1) = fst (bookFlight c2 f st2).
Proof.
  rewrite !bookHotel_eq, !bookFlight_eq. repeat split.
Qed.

(** C4. When the .env file does not load, or API_KEY is absent or empty
    once it has, the process ends at startup: one line that begins with
    "Error: " on standard error, exit status 1, nothing on standard output
    and no prompt submitted. *)
Theorem missing_credential_fails_startup (w : World) :
  credential_missing w ->
  fst (exec w) = Exited 1
  /\ submitted (snd (exec w)) = []
  /\ stdout (snd (exec w)) = []
  /\ exists msg,
       stderr (snd (exec w)) = ["Error: " ++ msg ++ nl]
       /\ (msg = "API_KEY environment variable is not set"
           \/ exists e, dotenv w = inl e /\ msg = "loading .env file: " ++ e).
Proof.
  unfold credential_missing. intros H.
  destruct (dotenv w) as [e|vars] eqn:Hdot.
  - rewrite (exec_dotenv_fails w e Hdot). repeat split.
    exists ("loading .env file: " ++ e). split; [reflexivity|].
    right. now exists e.
  - rewrite (exec_key_missing w vars Hdot).
    + repeat split. exists "API_KEY environment variable is not set".
      split; [reflexivity|now left].
    + destruct H as [-> | ->]; reflexivity.
Qed.

(** C4 at a world whose environment and .env file are both empty. *)
Lemma missing_credential_fails_startup_witness :
  credential_missing bare_world
  /\ fst (exec bare_world) = Exited 1
  /\ stderr (snd (exec bare_world))
     = ["Error: API_KEY environment variable is not set" ++ nl].
Proof.
  assert (H : credential_missing bare_world) by (left; reflexivity).
  split; [exact H|].
  destruct (missing_credential_fails_startup bare_world H) as (Ht & _ & _ & _).
  split; [exact Ht|reflexivity].
Defined.

(** ** Sample worlds *)





(** C6. The agent graph on the heap is a tree in every execution: no agent
    is its own ancestor and none has two parents. Once the Coordinator is
    there, its sub-agents are Booker and Info, in that order, and neither
    of the two has sub-agents. *)
Theorem agent_graph_is_tree (w : World) :
  is_tree (agents (snd (exec w)))
  /\ (forall c, c ∈ agents (snd (exec w)) -> Name c = "Coordinator" ->
      exists b i,
        (fun r => agents (snd (exec w)) !! r) <$> SubAgents c = [Some b; Some i]
        /\ Name b = "Booker" /\ Name i = "Info"
        /\ SubAgents b = [] /\ SubAgents i = []).
Proof.
  split.
  - rewrite exec_agents. destruct (runAgent_agents w) as (n & key & ->).
    apply table_is_tree.
  - intros c Hin Hname.
    destruct (coordinator_in_heap w c Hin Hname) as (key & -> & ->).
    exists (booker (flash key)), (info (flash key)). repeat split.
Qed.

(** C6 at the end-to-end scenario. *)
Lemma agent_graph_is_tree_witness :
  let h := agents (snd (exec (sample_world booking_steps))) in
  coordinator (flash "secret") ∈ h
  /\ exists b i,
       (fun r => h !! r) <$> SubAgents (coordinator (flash "secret"))
       = [Some b; Some i]
       /\ Name b = "Booker" /\ Name i = "Info"
       /\ SubAgents b = [] /\ SubAgents i = [].
Proof.
  intros h. split; [apply sample_coordinator|].
  exact (proj2 (agent_graph_is_tree (sample_world booking_steps))
           (coordinator (flash "secret")) sample_coordinator eq_refl).
Defined.

(** C7. The Coordinator is the degenerate agent: it has no tool, and its
    list of sub-agents is not empty - it holds exactly Booker and Info. *)
Theorem coordinator_is_router (w : World) (c : AgentConfig) :
  c ∈ agents (snd (exec w)) ->
  Name c = "Coordinator" ->
  Tools c = []
  /\ SubAgents c <> []
  /\ sub_agent_names (agents (snd (exec w))) c = [Some "Booker"; Some "Info"].
Proof.
  intros Hin Hname.
  destruct (coordinator_in_heap w c Hin Hname) as (key & -> & ->).
  repeat split. discriminate.
Qed.

(** C7 at the end-to-end scenario. *)
Lemma coordinator_is_router_witness :
  coordinator (flash "secret") ∈ agents (snd (exec (sample_world booking_steps)))
  /\ Tools (coordinator (flash "secret")) = []
  /\ sub_agent_names (agents (snd (exec (sample_world booking_steps))))
       (coordinator (flash "secret"))
     = [Some "Booker"; Some "Info"].
Proof.
  split; [apply sample_coordinator|].
  destruct (coordinator_is_router (sample_world booking_steps)
              (coordinator (flash "secret")) sample_coordinator eq_refl)
    as (Ht & _ & Hn).
  split; [exact Ht|exact Hn].
Defined.

(** C8. The loop of [run] reads the first part of every event without a
    guard. An event whose sequence of parts is empty is not skipped: the
    body panics on it, and so does the run that pulls it, at that very
    step. What the body does depends on the first part only, so a text in
    a later part is never printed. *)
Theorem first_part_unguarded (w : World) :
  (forall ev c st,
     EContent ev = Some c -> Parts c = [] ->
     run_body w (Some ev) None st = (inr (Panicked index_out_of_range), st))
  /\ (forall r sid p st pre post ev c,
        EContent ev = Some c -> Parts c = [] ->
        run_steps w (submitted st) (submission sid p)
        = (pre ++ Yield (Some ev) None :: post)%list ->
        forallb step_ok pre = true ->
        fst (run w r sid p st) = inr (Panicked index_out_of_range)
        /\ pulled (snd (run w r sid p st))
           = (pulled st ++ pre ++ [Yield (Some ev) None])%list)
  /\ (forall ev1 ev2 c1 c2 st,
        EContent ev1 = Some c1 -> EContent ev2 = Some c2 ->
        Parts c1 !! 0 = Parts c2 !! 0 ->
        run_body w (Some ev1) None st = run_body w (Some ev2) None st).
Proof.
  split; [|split].
  - intros ev c st. apply run_body_no_parts.
  - intros r sid p st pre post ev c Hc Hp Hs Hpre.
    rewrite (run_panic w r sid p st pre post (Some ev) index_out_of_range Hs Hpre).
    + split; [reflexivity|]. simpl. now rewrite app_nil_r.
    + intros st'. now apply run_body_no_parts with (c := c).
  - intros ev1 ev2 c1 c2 st H1 H2 Hhead.
    unfold run_body, deref, index0, bind, ret. rewrite H1, H2, Hhead. reflexivity.
Qed.

(** C8 at the run of a sample world and at two sample events. *)
Lemma first_part_unguarded_witness :
  let w := sample_world empty_parts_steps in
  run_body w (Some (event_of [])) None (start w)
  = (inr (Panicked index_out_of_range), start w)
  /\ fst (run w the_runner "session-1" "i want to visit in london?" (start w))
     = inr (Panicked index_out_of_range)
  /\ pulled (snd (run w the_runner "session-1" "i want to visit in london?" (start w)))
     = [Yield (Some (event_of [text_part "one"])) None;
        Yield (Some (event_of [])) None]
  /\ run_body w (Some (event_of [text_part ""; text_part "hello"])) None (start w)
     = run_body w (Some (event_of [text_part ""])) None (start w).
Proof.
  intros w.
  destruct (first_part_unguarded w) as (Hbody & Hrun & Hhead).
  split; [|split; [|split]].
  - exact (Hbody (event_of []) {| Parts := []; Role := "model" |} (start w)
             eq_refl eq_refl).
  - exact (proj1 (Hrun the_runner "session-1" "i want to visit in london?" (start w)
                    [Yield (Some (event_of [text_part "one"])) None]
                    [Yield (Some (event_of [text_part "never seen"])) None]
                    (event_of []) {| Parts := []; Role := "model" |}
                    eq_refl eq_refl eq_refl eq_refl)).
  - exact (proj2 (Hrun the_runner "session-1" "i want to visit in london?" (start w)
                    [Yield (Some (event_of [text_part "one"])) None]
                    [Yield (Some (event_of [text_part "never seen"])) None]
                    (event_of []) {| Parts := []; Role := "model" |}
                    eq_refl eq_refl eq_refl eq_refl)).
  - exact (Hhead (event_of [text_part ""; text_part "hello"])
             (event_of [text_part ""])
             {| Parts := [text_part ""; text_part "hello"]; Role := "model" |}
             {| Parts := [text_part ""]; Role := "model" |}
             (start w) eq_refl eq_refl eq_refl).
Defined.



(** * Further properties of the code *)

(** ** Any event sequence: how a run ends *)

(** A sequence of steps is got past as a whole, or has a first step the
    loop does not get past. *)
Lemma steps_split (steps : list Step) :
  forallb step_ok steps = true
  \/ exists pre bad post,
       steps = (pre ++ bad :: post)%list
       /\ forallb step_ok pre = true /\ step_ok bad = false.
Proof.
  induction steps as [|s rest IH]; [now left|].
  destruct (step_ok s) eqn:Hs.
  - destruct IH as [IH|(pre & bad & post & -> & Hpre & Hbad)].
    + left. simpl. now rewrite Hs, IH.
    + right. exists (s :: pre), bad, post. simpl. now rewrite Hs, Hpre.
  - right. exists [], s, rest. auto.
Qed.

Lemma run_body_unreadable_reason (w : World) (event : option Event) :
  first_text event = None ->
  exists reason,
    (reason = nil_dereference \/ reason = index_out_of_range)
    /\ forall st, run_body w event None st = (inr (Panicked reason), st).
Proof.
  intros H. unfold run_body, deref, index0, bind, ret, panic, terminate.
  destruct event as [ev|]; [|exists nil_dereference; auto]. simpl in H.
  destruct (EContent ev) as [c|]; [|exists nil_dereference; auto].
  destruct (Parts c) as [|[part|] ps]; simpl.
  - exists index_out_of_range; auto.
  - discriminate H.
  - exists nil_dereference; auto.
Qed.

(** The three ways a run can end, with the process it leaves behind. *)
Lemma run_cases (w : World) (r : RunnerConfig) (sid p : string) (st : Process) :
  let steps := steps_of w sid p st in
  let base := add_submitted (submission sid p) (emit [nl ++ "> " ++ p ++ nl] [] st) in
  (forallb step_ok steps = true
   /\ run w r sid p st = (inl tt, emit (concat (step_output <$> steps)) steps base))
  \/ (exists pre post event e,
        steps = (pre ++ Yield event (Some e) :: post)%list
        /\ forallb step_ok pre = true
        /\ run w r sid p st
           = (inr (Exited 1),
              add_stderr (fatal_entry w e)
                (emit (concat (step_output <$> pre))
                   (pre ++ [Yield event (Some e)]) base)))
  \/ (exists pre post event reason,
        steps = (pre ++ Yield event None :: post)%list
        /\ forallb step_ok pre = true
        /\ first_text event = None
        /\ (reason = nil_dereference \/ reason = index_out_of_range)
        /\ run w r sid p st
           = (inr (Panicked reason),
              emit (concat (step_output <$> pre)) (pre ++ [Yield event None]) base)).
Proof.
  intros steps base. unfold steps_of in steps.
  destruct (steps_split steps) as [Hok|(pre & bad & post & Hs & Hpre & Hbad)].
  - left. split; [exact Hok|]. now apply run_ok.
  - right. destruct bad as [c call|event [e|]]; [discriminate Hbad| |].
    + left. exists pre, post, event, e. repeat split; try assumption.
      now apply run_error with (post := post).
    + right. unfold step_ok in Hbad.
      destruct (first_text event) as [t|] eqn:Ht; [discriminate Hbad|].
      destruct (run_body_unreadable_reason w event Ht) as (reason & Hr & Hbody).
      exists pre, post, event, reason. repeat split; try assumption.
      now apply run_panic with (post := post).
Qed.



Lemma run_error_stops (w : World) (r : RunnerConfig) (sid p : string)
    (st : Process) :
  fst (run w r sid p st) <> inl tt ->
  forallb step_ok (steps_of w sid p st) = false.
Proof.
  intros Hne. destruct (forallb step_ok (steps_of w sid p st)) eqn:E; [|reflexivity].
  exfalso. apply Hne. unfold steps_of in E. now rewrite run_ok.
Qed.


(** X1. A run returns to its caller exactly when the loop gets past every
    step of the event sequence: no error, and a first part to read in
    every event. *)
Theorem run_returns_iff_steps_ok (w : World) (r : RunnerConfig) (sid p : string)
    (st : Process) :
  fst (run w r sid p st) = inl tt
  <-> forallb step_ok (steps_of w sid p st) = true.
Proof.
  split.
  - intros H.
    destruct (run_cases w r sid p st)
      as [[Hok _]|[(pre & post & ev & e & _ & _ & E)
                  |(pre & post & ev & reason & _ & _ & _ & _ & E)]].
    + exact Hok.
    + rewrite E in H. discriminate H.
    + rewrite E in H. discriminate H.
  - intros H. unfold steps_of in H. now rewrite run_ok.
Qed.

(** X2. However a run ends, it has echoed the prompt on standard output
    before anything else, submitted exactly one message - the prompt, for
    user "user1234", in the session given - and left the environment and
    the agents alone. *)
Theorem run_submits_and_echoes (w : World) (r : RunnerConfig) (sid p : string)
    (st : Process) :
  submitted (snd (run w r sid p st)) = (submitted st ++ [submission sid p])%list
  /\ (exists out,
        stdout (snd (run w r sid p st))
        = (stdout st ++ (nl ++ "> " ++ p ++ nl)%string :: out)%list)
  /\ env (snd (run w r sid p st)) = env st
  /\ agents (snd (run w r sid p st)) = agents st.
Proof.
  destruct (run_cases w r sid p st)
    as [[_ E]|[(pre & post & ev & e & _ & _ & E)
              |(pre & post & ev & reason & _ & _ & _ & _ & E)]];
    rewrite E; simpl; repeat split; eexists; now rewrite <- app_assoc.
Qed.


(** X4. With no error at hand, a nil event, an event whose content is nil
    and an event whose first part is nil each make the body of the loop
    panic on a nil pointer; nothing is printed and the event is not
    skipped. *)
Theorem nil_pointer_panics (w : World) (st : Process) :
  run_body w None None st = (inr (Panicked nil_dereference), st)
  /\ (forall ev, EContent ev = None ->
        run_body w (Some ev) None st = (inr (Panicked nil_dereference), st))
  /\ (forall ev c rest, EContent ev = Some c -> Parts c = None :: rest ->
        run_body w (Some ev) None st = (inr (Panicked nil_dereference), st)).
Proof.
  unfold run_body, deref, index0, bind, ret, panic, terminate.
  split; [reflexivity|]. split.
  - intros ev ->. reflexivity.
  - intros ev c rest -> ->. reflexivity.
Qed.

(** X4 at an event without content and an event whose only part is nil. *)
Lemma nil_pointer_panics_witness :
  run_body bare_world (Some {| Author := "Info"; EContent := None |}) None
    (start bare_world)
  = (inr (Panicked nil_dereference), start bare_world)
  /\ run_body bare_world (Some (event_of [None])) None (start bare_world)
     = (inr (Panicked nil_dereference), start bare_world).
Proof.
  destruct (nil_pointer_panics bare_world (start bare_world)) as (_ & Hc & Hp).
  split.
  - exact (Hc {| Author := "Info"; EContent := None |} eq_refl).
  - exact (Hp (event_of [None]) {| Parts := [None]; Role := "model" |} []
             eq_refl eq_refl).
Defined.

(** ** Startup, stage by stage *)

Ltac wrap_error lit :=
  match goal with
  | |- context [Errorf ?f [VError ?e]] =>
      change (Errorf f [VError e]) with (lit ++ e ++ "");
      rewrite (append_nil_r e)
  end.

Ltac startup_step :=
  cbv beta iota delta [add_agent env stdout stderr agents submitted pulled
    length app add_stderr halted].

(** [main] and [runAgent] follow the stages of [startup]. *)
Lemma exec_by_startup (w : World) : exec w = outcome w (startup w).
Proof.
  unfold exec, main, runAgent, startup, construct, outcome.
  cbv beta iota delta [bind ret get modify godotenv_Load os_Getenv
    gemini_NewModel functiontool_New llmagent_New runner_New
    sessionService_Create log_Fatal os_Exit terminate fmt_Fprintf_Stderr].
  destruct (dotenv w) as [e|vars].
  { rewrite error_line. wrap_error "loading .env file: ". reflexivity. }
  cbv beta iota delta [env set_env start].
  set (key := default "" ((environ w ∪ vars) !! "API_KEY")).
  destruct (String.eqb key ""); [now rewrite error_line|].
  destruct (gemini_NewModel_err w _ key) as [e|].
  { rewrite error_line. wrap_error "creating Gemini model: ". reflexivity. }
  destruct (functiontool_New_err w hotelToolConfig _) as [e|].
  { rewrite error_line. wrap_error "creating hotel tool: ". reflexivity. }
  destruct (functiontool_New_err w flightToolConfig _) as [e|].
  { rewrite error_line. wrap_error "creating flight tool: ". reflexivity. }
  change (llmagent_New_err w _) with (llmagent_New_err w (booker (flash key))) at 1.
  destruct (llmagent_New_err w (booker (flash key))) as [e|].
  { rewrite error_line. wrap_error "creating booking agent: ". reflexivity. }
  startup_step.
  change (llmagent_New_err w _) with (llmagent_New_err w (info (flash key))) at 1.
  destruct (llmagent_New_err w (info (flash key))) as [e|].
  { rewrite error_line. wrap_error "creating info agent: ". reflexivity. }
  startup_step.
  change (llmagent_New_err w _) with (llmagent_New_err w (coordinator (flash key))) at 1.
  destruct (llmagent_New_err w (coordinator (flash key))) as [e|].
  { rewrite error_line. wrap_error "creating coordinator agent: ". reflexivity. }
  startup_step.
  change (runner_New_err w _) with (runner_New_err w the_runner) at 1.
  destruct (runner_New_err w the_runner) as [e|]; [reflexivity|].
  destruct (session_Create_res w _ _) as [e|sid]; [reflexivity|].
  change (finish (bind (session_runs w sid)
            (fun err => match err with
                        | Some e =>
                            bind (modify (add_stderr (Sprintf ("Error: %v" ++ nl) [VError e])))
                              (fun _ => terminate (Exited 1))
                        | None => ret tt
                        end) (ready (environ w ∪ vars) key))
          = finish (session_runs w sid (ready (environ w ∪ vars) key))).
  unfold bind at 1.
  destruct (session_runs w sid (ready (environ w ∪ vars) key))
    as [[[e|]|t] st] eqn:E; try reflexivity.
  now apply session_runs_no_error in E.
Qed.

Lemma startup_keyed (w : World) (vars : gmap string string) (key : string) :
  keyed w vars key ->
  startup w = construct w (environ w ∪ vars) key.
Proof.
  intros (Hdot & Hload & Hkey). unfold loaded_key in Hload.
  unfold startup. rewrite Hdot. cbv zeta. rewrite Hload. simpl.
  apply String.eqb_neq in Hkey. now rewrite Hkey.
Qed.

Lemma exec_keyed (w : World) (vars : gmap string string) (key : string) :
  keyed w vars key ->
  exec w = outcome w (construct w (environ w ∪ vars) key).
Proof. intros H. now rewrite exec_by_startup, (startup_keyed w vars key H). Qed.

Lemma sample_keyed (w : World) :
  environ w = {[ "API_KEY" := "secret" ]} ->
  dotenv w = inr ∅ ->
  keyed w ∅ "secret".
Proof.
  intros He Hd. split; [exact Hd|]. split; [|discriminate].
  unfold loaded_key. rewrite He. reflexivity.
Qed.

(** X5. A model that cannot be created ends startup: [main] writes
    "Error: creating Gemini model: <error>" to standard error and exits
    with status 1; no agent has been created, nothing is printed or
    submitted. *)
Theorem model_error_ends_startup (w : World) (vars : gmap string string)
    (key e : string) :
  keyed w vars key ->
  gemini_NewModel_err w "gemini-2.5-flash" key = Some e ->
  exec w
  = (Exited 1,
     halted (environ w ∪ vars) [] ("Error: " ++ ("creating Gemini model: " ++ e) ++ nl)).
Proof.
  intros Hk He. rewrite (exec_keyed w vars key Hk).
  unfold construct. rewrite He. reflexivity.
Qed.

(** X5 at a world whose model client rejects the key. *)
Lemma model_error_ends_startup_witness :
  let w := faulty_world (Some "invalid key") (fun _ => None) (fun _ => None)
             None (inr "session-1") in
  keyed w ∅ "secret"
  /\ fst (exec w) = Exited 1
  /\ stderr (snd (exec w)) = ["Error: creating Gemini model: invalid key" ++ nl]
  /\ agents (snd (exec w)) = [].
Proof.
  intros w.
  assert (Hk : keyed w ∅ "secret") by (apply sample_keyed; reflexivity).
  split; [exact Hk|].
  rewrite (model_error_ends_startup w ∅ "secret" "invalid key" Hk eq_refl).
  repeat split.
Defined.

(** X6. A tool that cannot be created ends startup in the same way, and
    the message names the tool: the hotel tool is created first, the
    flight tool only once the hotel tool is there. *)
Theorem tool_error_ends_startup (w : World) (vars : gmap string string)
    (key e : string) :
  keyed w vars key ->
  gemini_NewModel_err w "gemini-2.5-flash" key = None ->
  (functiontool_New_err w hotelToolConfig HBookHotel = Some e ->
   exec w
   = (Exited 1,
      halted (environ w ∪ vars) [] ("Error: " ++ ("creating hotel tool: " ++ e) ++ nl)))
  /\ (functiontool_New_err w hotelToolConfig HBookHotel = None ->
      functiontool_New_err w flightToolConfig HBookFlight = Some e ->
      exec w
      = (Exited 1,
         halted (environ w ∪ vars) []
           ("Error: " ++ ("creating flight tool: " ++ e) ++ nl))).
Proof.
  intros Hk Hm. rewrite (exec_keyed w vars key Hk). unfold construct. rewrite Hm.
  split.
  - intros ->. reflexivity.
  - intros -> ->. reflexivity.
Qed.

(** X6 at a world that has no schema for either tool: the hotel tool is
    the one reported. *)
Lemma tool_error_ends_startup_witness :
  let w := faulty_world None (fun _ => Some "no schema") (fun _ => None)
             None (inr "session-1") in
  keyed w ∅ "secret"
  /\ exec w
     = (Exited 1,
        halted ({[ "API_KEY" := "secret" ]} ∪ ∅) []
          ("Error: creating hotel tool: no schema" ++ nl)).
Proof.
  intros w.
  assert (Hk : keyed w ∅ "secret") by (apply sample_keyed; reflexivity).
  split; [exact Hk|].
  exact (proj1 (tool_error_ends_startup w ∅ "secret" "no schema" Hk eq_refl) eq_refl).
Defined.

(** X7. An agent that cannot be created ends startup with the message of
    its stage, and the agents created before it stay on the heap: none
    for the booking agent, Booker for the info agent, Booker and Info for
    the coordinator. *)
Theorem agent_error_ends_startup (w : World) (vars : gmap string string)
    (key e : string) :
  keyed w vars key ->
  equipped w key ->
  (llmagent_New_err w (booker (flash key)) = Some e ->
   exec w
   = (Exited 1,
      halted (environ w ∪ vars) []
        ("Error: " ++ ("creating booking agent: " ++ e) ++ nl)))
  /\ (llmagent_New_err w (booker (flash key)) = None ->
      llmagent_New_err w (info (flash key)) = Some e ->
      exec w
      = (Exited 1,
         halted (environ w ∪ vars) [booker (flash key)]
           ("Error: " ++ ("creating info agent: " ++ e) ++ nl)))
  /\ (llmagent_New_err w (booker (flash key)) = None ->
      llmagent_New_err w (info (flash key)) = None ->
      llmagent_New_err w (coordinator (flash key)) = Some e ->
      exec w
      = (Exited 1,
         halted (environ w ∪ vars) [booker (flash key); info (flash key)]
           ("Error: " ++ ("creating coordinator agent: " ++ e) ++ nl))).
Proof.
  intros Hk (Hm & Hh & Hf). rewrite (exec_keyed w vars key Hk).
  unfold construct. rewrite Hm, Hh, Hf.
  split; [|split].
  - intros ->. reflexivity.
  - intros -> ->. reflexivity.
  - intros -> -> ->. reflexivity.
Qed.

(** X7 at a world that refuses the agent named Info. *)
Lemma agent_error_ends_startup_witness :
  let w := faulty_world None (fun _ => None)
             (fun name => if String.eqb name "Info" then Some "name taken" else None)
             None (inr "session-1") in
  keyed w ∅ "secret" /\ equipped w "secret"
  /\ fst (exec w) = Exited 1
  /\ stderr (snd (exec w)) = ["Error: creating info agent: name taken" ++ nl]
  /\ agents (snd (exec w)) = [booker (flash "secret")].
Proof.
  intros w.
  assert (Hk : keyed w ∅ "secret") by (apply sample_keyed; reflexivity).
  assert (He : equipped w "secret") by (repeat split).
  split; [exact Hk|]. split; [exact He|].
  rewrite (proj1 (proj2 (agent_error_ends_startup w ∅ "secret" "name taken" Hk He))
             eq_refl eq_refl).
  repeat split.
Defined.

(** X8. When the runner or the session cannot be created the error does
    not go back to [main]: the logger writes its own entry - its header
    and the error, not a line that begins with "Error: " - and ends the
    process with status 1. The three agents are on the heap by then;
    nothing is printed or submitted. *)
Theorem runner_or_session_error_is_fatal (w : World) (vars : gmap string string)
    (key e : string) :
  keyed w vars key ->
  equipped w key ->
  staffed w key ->
  (runner_New_err w the_runner = Some e ->
   exec w
   = (Exited 1,
      halted (environ w ∪ vars) (agent_table (flash key))
        (log_header w ++ log_entry e)))
  /\ (runner_New_err w the_runner = None ->
      session_Create_res w "booking_planner" "user1234" = inl e ->
      exec w
      = (Exited 1,
         halted (environ w ∪ vars) (agent_table (flash key))
           (log_header w ++ log_entry e))).
Proof.
  intros Hk (Hm & Hh & Hf) (Hb & Hi & Hc). rewrite (exec_keyed w vars key Hk).
  unfold construct. rewrite Hm, Hh, Hf, Hb, Hi, Hc.
  split.
  - intros ->. reflexivity.
  - intros -> ->. reflexivity.
Qed.

(** X8 at a world whose session service is down. *)
Lemma runner_or_session_error_is_fatal_witness :
  let w := faulty_world None (fun _ => None) (fun _ => None)
             None (inl "store unavailable") in
  keyed w ∅ "secret" /\ equipped w "secret" /\ staffed w "secret"
  /\ fst (exec w) = Exited 1
  /\ stderr (snd (exec w)) = ["2025/11/14 10:00:00 store unavailable" ++ nl]
  /\ submitted (snd (exec w)) = [].
Proof.
  intros w.
  assert (Hk : keyed w ∅ "secret") by (apply sample_keyed; reflexivity).
  assert (He : equipped w "secret") by (repeat split).
  assert (Hs : staffed w "secret") by (repeat split).
  split; [exact Hk|]. split; [exact He|]. split; [exact Hs|].
  rewrite (proj2 (runner_or_session_error_is_fatal w ∅ "secret"
                    "store unavailable" Hk He Hs) eq_refl eq_refl).
  repeat split.
Defined.

(** ** Every execution *)

Lemma run_outcome (w : World) (r : RunnerConfig) (sid p : string) (st : Process) :
  submitted (snd (run w r sid p st)) = (submitted st ++ [submission sid p])%list
  /\ match fst (run w r sid p st) with
     | inl _ =>
         stderr (snd (run w r sid p st)) = stderr st
         /\ forallb step_ok (steps_of w sid p st) = true
         /\ pulled (snd (run w r sid p st))
            = (pulled st ++ steps_of w sid p st)%list
     | inr (Exited c) =>
         c = 1%Z
         /\ exists e,
              stderr (snd (run w r sid p st)) = (stderr st ++ [fatal_entry w e])%list
     | inr (Panicked reason) =>
         stderr (snd (run w r sid p st)) = stderr st
         /\ (reason = nil_dereference \/ reason = index_out_of_range)
     end.
Proof.
  destruct (run_cases w r sid p st)
    as [[Hok E]|[(pre & post & ev & e & _ & _ & E)
                |(pre & post & ev & reason & _ & _ & _ & Hr & E)]];
    rewrite E; simpl.
  - repeat split; try assumption. now rewrite app_nil_r.
  - repeat split. now exists e.
  - repeat split. exact Hr.
Qed.

(** The three runs from a process that has submitted, pulled and logged
    nothing yet. *)
Lemma session_outcome (w : World) (sid : string) (st0 : Process) :
  submitted st0 = [] -> stderr st0 = [] -> pulled st0 = [] ->
  exists n,
    1 <= n <= 3
    /\ submitted (snd (session_runs w sid st0)) = submission sid <$> take n prompts
    /\ match fst (session_runs w sid st0) with
       | inl _ =>
           n = 3
           /\ stderr (snd (session_runs w sid st0)) = []
           /\ (forall k, forallb step_ok (stream w sid k) = true)
           /\ pulled (snd (session_runs w sid st0))
              = (stream w sid 0 ++ stream w sid 1 ++ stream w sid 2)%list
       | inr (Exited c) =>
           c = 1%Z
           /\ exists e, stderr (snd (session_runs w sid st0)) = [fatal_entry w e]
       | inr (Panicked reason) =>
           stderr (snd (session_runs w sid st0)) = []
           /\ (reason = nil_dereference \/ reason = index_out_of_range)
       end.
Proof.
  intros Hsub Herr Hpul. unfold session_runs, bind.
  pose proof (run_outcome w the_runner sid "i want to visit in london?" st0)
    as (Hs1 & Ho1).
  unfold steps_of in Ho1. rewrite Hsub in Hs1, Ho1. rewrite Herr, Hpul in Ho1.
  destruct (run w the_runner sid "i want to visit in london?" st0)
    as [[[]|[c|reason]] st1]; simpl in Hs1, Ho1; simpl;
    [|exists 1; split; [lia|]; split; [exact Hs1|exact Ho1]..].
  destruct Ho1 as (He1 & Hok1 & Hp1).
  pose proof (run_outcome w the_runner sid "on 2025-11-14" st1) as (Hs2 & Ho2).
  unfold steps_of in Ho2. rewrite Hs1 in Hs2, Ho2. rewrite He1, Hp1 in Ho2.
  destruct (run w the_runner sid "on 2025-11-14" st1)
    as [[[]|[c|reason]] st2]; simpl in Hs2, Ho2; simpl;
    [|exists 2; split; [lia|]; split; [exact Hs2|];
      repeat split; try apply Ho2..].
  destruct Ho2 as (He2 & Hok2 & Hp2).
  pose proof (run_outcome w the_runner sid "also book a hotel for me " st2)
    as (Hs3 & Ho3).
  unfold steps_of in Ho3. rewrite Hs2 in Hs3, Ho3. rewrite He2, Hp2 in Ho3.
  destruct (run w the_runner sid "also book a hotel for me " st2)
    as [[[]|[c|reason]] st3]; simpl in Hs3, Ho3; simpl;
    [|exists 3; split; [lia|]; split; [exact Hs3|];
      repeat split; try apply Ho3..].
  destruct Ho3 as (He3 & Hok3 & Hp3).
  exists 3. split; [lia|]. split; [exact Hs3|].
  split; [reflexivity|]. split; [exact He3|]. split.
  - intros [|[|[|k]]]; [exact Hok1|exact Hok2|exact Hok3|reflexivity].
  - rewrite Hp3. now rewrite <- app_assoc.
Qed.

Lemma exec_outcome (w : World) :
  exists n sid,
    n <= 3
    /\ submitted (snd (exec w)) = submission sid <$> take n prompts
    /\ (n = 0 ->
        fst (exec w) = Exited 1 /\ stdout (snd (exec w)) = []
        /\ pulled (snd (exec w)) = [])
    /\ match fst (exec w) with
       | Exited c =>
           (c = 0%Z /\ n = 3 /\ stderr (snd (exec w)) = []
            /\ (forall k, forallb step_ok (stream w sid k) = true)
            /\ pulled (snd (exec w))
               = (stream w sid 0 ++ stream w sid 1 ++ stream w sid 2)%list)
           \/ (c = 1%Z /\ exists line, stderr (snd (exec w)) = [line])
       | Panicked reason =>
           1 <= n /\ stderr (snd (exec w)) = []
           /\ (reason = nil_dereference \/ reason = index_out_of_range)
       end.
Proof.
  rewrite exec_by_startup.
  destruct (startup w) as [msg e h|msg e key|e key sid]; simpl.
  - exists 0, "". repeat split; [lia|]. right. split; [reflexivity|]. eauto.
  - exists 0, "". repeat split; [lia|]. right. split; [reflexivity|]. eauto.
  - destruct (session_outcome w sid (ready e key) eq_refl eq_refl eq_refl)
      as (n & Hn & Hsub & Hout).
    exists n, sid. unfold finish.
    destruct (session_runs w sid (ready e key)) as [[a|[c|reason]] st];
      simpl in *.
    + split; [lia|]. split; [exact Hsub|]. split; [lia|]. now left.
    + split; [lia|]. split; [exact Hsub|]. split; [lia|]. right.
      destruct Hout as (-> & err & Herr). split; [reflexivity|]. eauto.
    + split; [lia|]. split; [exact Hsub|]. split; [lia|].
      destruct Hout as (Herr & Hr). repeat split; [lia|exact Herr|exact Hr].
Qed.

(** X9. In every execution the messages submitted are the first n of the
    three prompts, for some n, in the order of the program text, all for
    user "user1234" and all in one session: no prompt is skipped, repeated
    or sent to another session. *)
Theorem submitted_is_prefix (w : World) :
  exists n sid,
    n <= 3 /\ submitted (snd (exec w)) = submission sid <$> take n prompts.
Proof.
  destruct (exec_outcome w) as (n & sid & Hn & Hsub & _).
  now exists n, sid.
Qed.




(** X12. The process panics only inside a run, never during startup: at
    least the first prompt has been submitted, and the panic is a nil
    pointer dereference or an index out of range at the first part of an
    event. *)
Theorem panic_only_in_runs (w : World) (reason : string) :
  fst (exec w) = Panicked reason ->
  submitted (snd (exec w)) <> []
  /\ (reason = nil_dereference \/ reason = index_out_of_range).
Proof.
  intros H. destruct (exec_outcome w) as (n & sid & _ & Hsub & _ & Hout).
  rewrite H in Hout. destruct Hout as (Hn & _ & Hr).
  split; [|exact Hr]. rewrite Hsub.
  destruct n as [|n]; [lia|discriminate].
Qed.

(** X12 at a world whose first run is handed a nil event. *)
Lemma panic_only_in_runs_witness :
  fst (exec (sample_world nil_event_steps)) = Panicked nil_dereference
  /\ submitted (snd (exec (sample_world nil_event_steps))) <> [].
Proof.
  split; [reflexivity|].
  exact (proj1 (panic_only_in_runs (sample_world nil_event_steps)
                  nil_dereference eq_refl)).
Defined.

(** X13. When no prompt has been submitted, startup has failed: the exit
    status is 1, there is exactly one entry on standard error, standard
    output is empty and no event sequence has been touched. *)
Theorem no_prompt_means_startup_failed (w : World) :
  submitted (snd (exec w)) = [] ->
  fst (exec w) = Exited 1
  /\ stdout (snd (exec w)) = []
  /\ pulled (snd (exec w)) = []
  /\ exists line, stderr (snd (exec w)) = [line].
Proof.
  intros H. destruct (exec_outcome w) as (n & sid & _ & Hsub & H0 & Hout).
  rewrite H in Hsub. destruct n as [|n]; [|discriminate Hsub].
  destruct (H0 eq_refl) as (Ht & Ho & Hp).
  rewrite Ht in Hout.
  destruct Hout as [(Hc & _)|(_ & Hline)]; [discriminate Hc|].
  auto.
Qed.

(** X13 at a world without credential. *)
Lemma no_prompt_means_startup_failed_witness :
  submitted (snd (exec bare_world)) = []
  /\ fst (exec bare_world) = Exited 1
  /\ stdout (snd (exec bare_world)) = [].
Proof.
  split; [reflexivity|].
  destruct (no_prompt_means_startup_failed bare_world eq_refl) as (Ht & Ho & _).
  split; [exact Ht|exact Ho].
Defined.

(** ** The heap and the key *)

Lemma session_runs_env (w : World) (sid : string) (st : Process) :
  env (snd (session_runs w sid st)) = env st.
Proof.
  unfold session_runs, bind.
  pose proof (run_submits_and_echoes w the_runner sid
                "i want to visit in london?" st) as (_ & _ & H1 & _).
  destruct (run w the_runner sid "i want to visit in london?" st)
    as [[[]|t] st1]; simpl in *; [|exact H1].
  pose proof (run_submits_and_echoes w the_runner sid "on 2025-11-14" st1)
    as (_ & _ & H2 & _).
  destruct (run w the_runner sid "on 2025-11-14" st1)
    as [[[]|t] st2]; simpl in *; [|congruence].
  pose proof (run_submits_and_echoes w the_runner sid
                "also book a hotel for me " st2) as (_ & _ & H3 & _).
  destruct (run w the_runner sid "also book a hotel for me " st2)
    as [[[]|t] st3]; simpl in *; congruence.
Qed.

Lemma finish_snd {A} (r : (A + Termination) * Process) : snd (finish r) = snd r.
Proof. now destruct r as [[a|t] st]. Qed.

Lemma default_key (o : option string) (key : string) :
  default "" o = key -> key <> "" -> o = Some key.
Proof. destruct o as [s|]; simpl; intros <- H; [reflexivity|now destruct H]. Qed.

(** What is on the heap, and under which key. *)
Lemma exec_heap (w : World) :
  agents (snd (exec w)) = []
  \/ exists n key,
       key <> ""
       /\ env (snd (exec w)) !! "API_KEY" = Some key
       /\ agents (snd (exec w)) = take n (agent_table (flash key)).
Proof.
  rewrite exec_by_startup. unfold startup.
  destruct (dotenv w) as [e|vars]; [now left|]. cbv zeta.
  destruct (String.eqb (default "" ((environ w ∪ vars) !! "API_KEY")) "") eqn:E;
    [now left|].
  apply String.eqb_neq in E.
  set (key := default "" ((environ w ∪ vars) !! "API_KEY")) in *.
  assert (Hk : (environ w ∪ vars) !! "API_KEY" = Some key)
    by now apply default_key.
  unfold construct.
  destruct (gemini_NewModel_err w _ key); [now left|].
  destruct (functiontool_New_err w hotelToolConfig _); [now left|].
  destruct (functiontool_New_err w flightToolConfig _); [now left|].
  destruct (llmagent_New_err w (booker (flash key))); [now left|].
  destruct (llmagent_New_err w (info (flash key)));
    [right; exists 1, key; auto|].
  destruct (llmagent_New_err w (coordinator (flash key)));
    [right; exists 2, key; auto|].
  destruct (runner_New_err w the_runner); [right; exists 3, key; auto|].
  destruct (session_Create_res w _ _) as [e|sid]; [right; exists 3, key; auto|].
  right. exists 3, key. simpl. rewrite finish_snd.
  split; [exact E|]. split.
  - now rewrite session_runs_env.
  - exact (keeps_runs w the_runner sid (ready (environ w ∪ vars) key)).
Qed.

(** X14. Every agent ever created carries the same model: its name is
    "gemini-2.5-flash" and its key is the value of API_KEY in the
    environment of the process, which is not empty. No agent is created
    with an empty key. *)
Theorem agents_share_keyed_model (w : World) (a : AgentConfig) :
  a ∈ agents (snd (exec w)) ->
  ModelName (AModel a) = "gemini-2.5-flash"
  /\ APIKey (AModel a) <> ""
  /\ env (snd (exec w)) !! "API_KEY" = Some (APIKey (AModel a))
  /\ (forall b, b ∈ agents (snd (exec w)) -> AModel b = AModel a).
Proof.
  intros Ha. destruct (exec_heap w) as [H|(n & key & Hkey & Henv & H)];
    rewrite H in *; [now apply elem_of_nil in Ha|].
  assert (Hall : forall c, c ∈ take n (agent_table (flash key)) ->
                           AModel c = flash key).
  { intros c Hc. apply elem_of_take in Hc as (i & Hc & _).
    destruct i as [|[|[|i]]]; simpl in Hc; try discriminate;
      now injection Hc as <-. }
  rewrite (Hall a Ha). repeat split; assumption.
Qed.

(** X14 at the coordinator of the end-to-end scenario. *)
Lemma agents_share_keyed_model_witness :
  coordinator (flash "secret") ∈ agents (snd (exec (sample_world booking_steps)))
  /\ APIKey (AModel (coordinator (flash "secret"))) <> ""
  /\ env (snd (exec (sample_world booking_steps))) !! "API_KEY" = Some "secret".
Proof.
  split; [apply sample_coordinator|].
  destruct (agents_share_keyed_model (sample_world booking_steps)
              (coordinator (flash "secret")) sample_coordinator)
    as (_ & Hk & He & _).
  split; [exact Hk|exact He].
Defined.

Lemma edge_table_bound (n : nat) (m : Model) (a b : AgentRef) :
  edge (take n (agent_table m)) a b ->
  b < length (take n (agent_table m)).
Proof.
  intros H. pose proof (edge_table n m a b H) as (-> & Hb).
  destruct H as (c & Hl & _). apply lookup_take_Some in Hl as [_ Hn].
  rewrite length_take. simpl. destruct Hb as [-> | ->]; lia.
Qed.

Lemma table_names_distinct (n : nat) (m : Model) :
  NoDup (Name <$> take n (agent_table m)).
Proof.
  destruct n as [|[|[|n]]]; simpl; rewrite ?take_nil; simpl;
    repeat (apply NoDup_cons; split;
            [intros H; repeat (apply elem_of_cons in H as [H|H];
                               [discriminate H|]);
             now apply elem_of_nil in H|]);
    apply NoDup_nil; exact I.
Qed.

(** X15. The heap of agents is well formed in every execution: the names
    of the agents are pairwise distinct, every sub-agent reference points
    to an agent that is on the heap, and no agent has the Coordinator as a
    sub-agent. *)
Theorem heap_well_formed (w : World) :
  NoDup (Name <$> agents (snd (exec w)))
  /\ (forall a b, edge (agents (snd (exec w))) a b ->
        b < length (agents (snd (exec w))))
  /\ (forall a r c, agents (snd (exec w)) !! r = Some c ->
        Name c = "Coordinator" -> ~ edge (agents (snd (exec w))) a r).
Proof.
  rewrite exec_agents. destruct (runAgent_agents w) as (n & key & ->).
  split; [apply table_names_distinct|]. split.
  - intros a b. apply edge_table_bound.
  - intros a r c Hl Hname Hedge.
    apply edge_table in Hedge as (_ & Hr).
    apply lookup_take_Some in Hl as [Hl _].
    destruct Hr as [-> | ->]; simpl in Hl; injection Hl as <-; discriminate Hname.
Qed.

(** X15 at the end-to-end scenario, for the edge from the Coordinator to
    Info. *)
Lemma heap_well_formed_witness :
  let h := agents (snd (exec (sample_world booking_steps))) in
  edge h 2 1 /\ 1 < length h
  /\ h !! 2 = Some (coordinator (flash "secret")) /\ ~ edge h 1 2.
Proof.
  intros h.
  assert (He : edge h 2 1).
  { exists (coordinator (flash "secret")). split; [reflexivity|].
    apply elem_of_cons. right. apply elem_of_cons. now left. }
  destruct (heap_well_formed (sample_world booking_steps)) as (_ & Hb & Hr).
  split; [exact He|]. split; [exact (Hb 2 1 He)|]. split; [reflexivity|].
  exact (Hr 1 2 (coordinator (flash "secret")) eq_refl eq_refl).
Defined.

(** ** When the first prompt is reached *)

Lemma construct_ready (w : World) (en : gmap string string) (key : string)
    (en' : gmap string string) (key' sid : string) :
  construct w en key = Ready en' key' sid ->
  equipped w key /\ staffed w key
  /\ runner_New_err w the_runner = None
  /\ session_Create_res w "booking_planner" "user1234" = inr sid.
Proof.
  unfold construct, equipped, staffed.
  destruct (gemini_NewModel_err w _ key); [discriminate|].
  destruct (functiontool_New_err w hotelToolConfig _); [discriminate|].
  destruct (functiontool_New_err w flightToolConfig _); [discriminate|].
  destruct (llmagent_New_err w (booker (flash key))); [discriminate|].
  destruct (llmagent_New_err w (info (flash key))); [discriminate|].
  destruct (llmagent_New_err w (coordinator (flash key))); [discriminate|].
  destruct (runner_New_err w the_runner); [discriminate|].
  destruct (session_Create_res w _ _) as [e|s]; [discriminate|].
  intros [= _ _ ->]. repeat split.
Qed.

Lemma construct_of_ready (w : World) (en : gmap string string) (key sid : string) :
  equipped w key -> staffed w key ->
  runner_New_err w the_runner = None ->
  session_Create_res w "booking_planner" "user1234" = inr sid ->
  construct w en key = Ready en key sid.
Proof.
  intros (Hm & Hh & Hf) (Hb & Hi & Hc) Hr Hs.
  unfold construct. now rewrite Hm, Hh, Hf, Hb, Hi, Hc, Hr, Hs.
Qed.

(** X16. The first prompt is submitted exactly when startup goes through:
    the .env file loads, API_KEY is not empty afterwards, and each of the
    calls the program itself makes - the model for that key, the two tools,
    the three agents, the runner and the session - succeeds. Nothing else
    the world could refuse matters. *)
Theorem first_prompt_iff_startup (w : World) :
  submitted (snd (exec w)) <> []
  <-> exists vars key sid,
        keyed w vars key /\ equipped w key /\ staffed w key
        /\ runner_New_err w the_runner = None
        /\ session_Create_res w "booking_planner" "user1234" = inr sid.
Proof.
  split.
  - intros Hsub. rewrite exec_by_startup in Hsub. unfold startup in Hsub.
    destruct (dotenv w) as [e|vars] eqn:Hdot; [now destruct Hsub|].
    cbv zeta in Hsub.
    destruct (String.eqb (default "" ((environ w ∪ vars) !! "API_KEY")) "") eqn:E;
      [now destruct Hsub|].
    apply String.eqb_neq in E.
    set (key := default "" ((environ w ∪ vars) !! "API_KEY")) in *.
    destruct (construct w (environ w ∪ vars) key) as [msg en h|msg en k|en k sid]
      eqn:Hc; [now destruct Hsub..|].
    apply construct_ready in Hc as (He & Hs & Hr & Hsess).
    exists vars, key, sid.
    split; [|exact (conj He (conj Hs (conj Hr Hsess)))].
    split; [exact Hdot|]. split; [|exact E].
    unfold loaded_key. now apply default_key.
  - intros (vars & key & sid & Hk & He & Hs & Hr & Hsess).
    rewrite (exec_keyed w vars key Hk).
    rewrite (construct_of_ready w _ key sid He Hs Hr Hsess). simpl.
    rewrite finish_snd.
    destruct (session_outcome w sid (ready (environ w ∪ vars) key)
                eq_refl eq_refl eq_refl) as (n & Hn & -> & _).
    destruct n as [|n]; [lia|discriminate].
Qed.

(** ** An event that cannot be read *)



(** ** Further sample checks *)

(** X1 at the first run of the end-to-end scenario, and at a run that is
    handed a nil event. *)
Lemma run_returns_iff_steps_ok_witness :
  let w := sample_world booking_steps in
  let v := sample_world nil_event_steps in
  forallb step_ok (steps_of w "session-1" "i want to visit in london?" (start w)) = true
  /\ fst (run w the_runner "session-1" "i want to visit in london?" (start w)) = inl tt
  /\ forallb step_ok (steps_of v "session-1" "i want to visit in london?" (start v))
     <> true.
Proof.
  intros w v. split; [reflexivity|]. split.
  - exact (proj2 (run_returns_iff_steps_ok w the_runner "session-1"
                    "i want to visit in london?" (start w)) eq_refl).
  - intros H.
    apply (proj2 (run_returns_iff_steps_ok v the_runner "session-1"
                    "i want to visit in london?" (start v))) in H.
    discriminate H.
Defined.

(** X16 at the end-to-end scenario and at a world whose session service is
    down. *)
Lemma first_prompt_iff_startup_witness :
  let w := sample_world booking_steps in
  let v := faulty_world None (fun _ => None) (fun _ => None)
             None (inl "store unavailable") in
  submitted (snd (exec w)) <> []
  /\ ~ exists vars key sid,
         keyed v vars key /\ equipped v key /\ staffed v key
         /\ runner_New_err v the_runner = None
         /\ session_Create_res v "booking_planner" "user1234" = inr sid.
Proof.
  intros w v. split.
  - apply (proj2 (first_prompt_iff_startup w)).
    exists ∅, "secret", "session-1".
    split; [apply sample_keyed; reflexivity|]. repeat split.
  - intros H. apply (proj2 (first_prompt_iff_startup v)) in H.
    apply H. reflexivity.
Defined.
